(** * Partition health index and partition explorer of dagit

    A shallow embedding of
    [js_modules/dagit/packages/core/src/assets/usePartitionHealthData.tsx]
    (the per-asset health index and the hook that loads it) and of the pure
    part of [AssetPartitions.tsx] (time range, displayed key order, row
    computation, focus vector), followed by the properties the design
    document states about them.

    JavaScript values are modelled as far as the code can produce them:
    [undefined], a [PartitionState], a plain object built by
    [Object.fromEntries], and a member inherited from [Object.prototype].
    Property order, property reads on [undefined] and the [throw] of
    [stateForSingleDimension] are written out. *)

From Stdlib Require Import List String Ascii ZArith NArith Bool Arith Lia Permutation.
Import ListNotations.
Local Open Scope string_scope.
Local Open Scope list_scope.

(* ===================================================================== *)
(** ** JavaScript values and results *)
(* ===================================================================== *)

Module Js.

(** [PartitionState] of [../partitions/PartitionStatus]: the three members
    the two source files use. *)
Inductive PartitionState : Type :=
| MISSING
| SUCCESS
| SUCCESS_MISSING.

Definition PartitionState_eqb (a b : PartitionState) : bool :=
  match a, b with
  | MISSING, MISSING | SUCCESS, SUCCESS | SUCCESS_MISSING, SUCCESS_MISSING => true
  | _, _ => false
  end.

(** The values that flow through the index: a plain object keeps its own
    properties in creation order; [VInherited n] is the member [n] that a
    plain object inherits from [Object.prototype]. *)
#[warnings="-register-all"]
Inductive JsVal : Type :=
| VUndefined
| VState (s : PartitionState)
| VObject (props : list (string * JsVal))
| VInherited (name : string).

(** What a call can raise: the engine's [TypeError] (a property read on
    [undefined]), [new Error(msg)], and the failure of the state merger on
    an empty collection. *)
Inductive Thrown : Type :=
| TypeError
| Error (msg : string)
| InvalidArgument.

(** Result of running a piece of code.  [OutOfModel] marks an execution
    that leaves the fragment described here (a property read on a string
    primitive or on an inherited function, the state merger applied to
    values that are not states): its result depends on declarations that
    are not part of the two files. *)
Inductive Outcome (A : Type) : Type :=
| Ret (a : A)
| Throw (e : Thrown)
| OutOfModel.

Arguments Ret {A} a.
Arguments Throw {A} e.
Arguments OutOfModel {A}.

Definition bind {A B : Type} (c : Outcome A) (k : A -> Outcome B) : Outcome B :=
  match c with
  | Ret a => k a
  | Throw e => Throw e
  | OutOfModel => OutOfModel
  end.

Declare Scope js_scope.
Delimit Scope js_scope with js.
Notation "x <- c ;; k" := (bind c (fun x => k))
  (at level 61, c at next level, right associativity) : js_scope.
Local Open Scope js_scope.

(** [Array.prototype.map] with a callback that may throw. *)
Fixpoint mapM {A B : Type} (f : A -> Outcome B) (l : list A) : Outcome (list B) :=
  match l with
  | [] => Ret []
  | a :: l' => b <- f a ;; bs <- mapM f l' ;; Ret (b :: bs)
  end.

(** [Array.prototype.map] with the [(element, index)] callback; [i] is the
    index of the first element of [l]. *)
Fixpoint mapiM_from {A B : Type} (f : A -> nat -> Outcome B) (i : nat) (l : list A)
  : Outcome (list B) :=
  match l with
  | [] => Ret []
  | a :: l' => b <- f a i ;; bs <- mapiM_from f (S i) l' ;; Ret (b :: bs)
  end.

Definition mapiM {A B : Type} (f : A -> nat -> Outcome B) (l : list A) : Outcome (list B) :=
  mapiM_from f 0 l.

(** *** Plain objects *)

(** [ToPropertyKey] on a value that is a string or [undefined]. *)
Definition propertyKey (k : option string) : string :=
  match k with
  | Some s => s
  | None => "undefined"
  end.

Fixpoint getOwn {V : Type} (k : string) (o : list (string * V)) : option V :=
  match o with
  | [] => None
  | (k', v) :: o' => if String.eqb k' k then Some v else getOwn k o'
  end.

(** [CreateDataProperty]: an existing key keeps its place and takes the new
    value, a new key is appended. *)
Fixpoint setProp {V : Type} (k : string) (v : V) (o : list (string * V))
  : list (string * V) :=
  match o with
  | [] => [(k, v)]
  | (k', v') :: o' =>
      if String.eqb k' k then (k', v) :: o' else (k', v') :: setProp k v o'
  end.

Definition Object_fromEntries {V : Type} (entries : list (string * V))
  : list (string * V) :=
  fold_left (fun o e => setProp (fst e) (snd e) o) entries [].

(** Names a plain object inherits from [Object.prototype]. *)
Definition objectPrototypeNames : list string :=
  [ "constructor"; "__proto__"; "hasOwnProperty"; "isPrototypeOf";
    "propertyIsEnumerable"; "toLocaleString"; "toString"; "valueOf";
    "__defineGetter__"; "__defineSetter__"; "__lookupGetter__";
    "__lookupSetter__" ].

Definition inheritedName (k : string) : bool :=
  existsb (String.eqb k) objectPrototypeNames.

(** [v[k]] for a string key. *)
Definition getProp (v : JsVal) (k : string) : Outcome JsVal :=
  match v with
  | VUndefined => Throw TypeError
  | VObject o =>
      match getOwn k o with
      | Some x => Ret x
      | None => if inheritedName k then Ret (VInherited k) else Ret VUndefined
      end
  | VState _ => OutOfModel
  | VInherited _ => OutOfModel
  end.

(** *** Own property order

    [Object.entries] and [Object.values] list the array-index keys first, in
    ascending numeric order, then the other string keys in creation order. *)

Definition digit (c : ascii) : option N :=
  let n := N_of_ascii c in
  if ((48 <=? n) && (n <=? 57))%N then Some (n - 48)%N else None.

Fixpoint parseDigits (s : string) (acc : N) : option N :=
  match s with
  | EmptyString => Some acc
  | String c s' =>
      match digit c with
      | Some d => parseDigits s' (acc * 10 + d)%N
      | None => None
      end
  end.

(** A canonical numeric string below [2^32 - 1]. *)
Definition arrayIndex (k : string) : option N :=
  match k with
  | EmptyString => None
  | String c rest =>
      if Ascii.eqb c "0"%char
      then match rest with EmptyString => Some 0%N | _ => None end
      else match parseDigits k 0 with
           | Some n => if (n <=? 4294967294)%N then Some n else None
           | None => None
           end
  end.

Definition isArrayIndex (k : string) : bool :=
  match arrayIndex k with Some _ => true | None => false end.

Definition indexOf (k : string) : N :=
  match arrayIndex k with Some n => n | None => 0%N end.

Fixpoint insertByIndex {V : Type} (e : string * V) (l : list (string * V))
  : list (string * V) :=
  match l with
  | [] => [e]
  | e' :: l' =>
      if (indexOf (fst e) <=? indexOf (fst e'))%N then e :: e' :: l'
      else e' :: insertByIndex e l'
  end.

Fixpoint sortByIndex {V : Type} (l : list (string * V)) : list (string * V) :=
  match l with
  | [] => []
  | e :: l' => insertByIndex e (sortByIndex l')
  end.

Definition Object_entries {V : Type} (o : list (string * V)) : list (string * V) :=
  sortByIndex (filter (fun e => isArrayIndex (fst e)) o)
  ++ filter (fun e => negb (isArrayIndex (fst e))) o.

(** [Object.values(v)]. *)
Definition Object_values (v : JsVal) : Outcome (list JsVal) :=
  match v with
  | VUndefined => Throw TypeError
  | VObject o => Ret (map snd (Object_entries o))
  | VState _ => OutOfModel
  | VInherited _ => OutOfModel
  end.

(** *** Strings *)

(** [s.split(sep)] for a one-character separator. *)
Fixpoint split (sep : ascii) (s : string) : list string :=
  match s with
  | EmptyString => [EmptyString]
  | String c rest =>
      if Ascii.eqb c sep then EmptyString :: split sep rest
      else match split sep rest with
           | [] => [String c EmptyString]
           | piece :: pieces => String c piece :: pieces
           end
  end.

(** Truthiness of a string: the empty string is falsy. *)
Definition truthy (s : string) : bool :=
  match s with
  | EmptyString => false
  | String _ _ => true
  end.

(** [arr.join(sep)]; an [undefined] element is written as the empty string. *)
Fixpoint join (sep : string) (l : list (option string)) : string :=
  match l with
  | [] => ""
  | [x] => match x with Some s => s | None => "" end
  | x :: rest => match x with Some s => s | None => "" end ++ sep ++ join sep rest
  end.

(** [s.includes(c)] for a one-character needle. *)
Fixpoint containsChar (c : ascii) (s : string) : bool :=
  match s with
  | EmptyString => false
  | String c' rest => Ascii.eqb c' c || containsChar c rest
  end.

(** A key that is not empty and does not contain the separator of the
    focus string. *)
Definition plainKey (k : string) : Prop :=
  truthy k = true /\ containsChar "|"%char k = false.

End Js.

(* ===================================================================== *)
(** ** usePartitionHealthData.tsx: the per-asset health index *)
(* ===================================================================== *)

Module Health.
Import Js.
Local Open Scope js_scope.

Record AssetKey : Type := { path : list string }.

Record PartitionHealthDimension : Type := {
  name : string;
  partitionKeys : list string
}.

Record PartitionHealthDimensionRange : Type := {
  dimension : PartitionHealthDimension;
  selected : list string
}.

(** [partitionMaterializationCounts] of the query: one of two shapes. *)
Inductive MaterializationCounts : Type :=
| MaterializationCountSingleDimension (materializationCounts : list Z)
| MaterializationCountGroupedByDimension (materializationCountsGrouped : list (list Z)).

(** [data.assetNodeOrError]: an asset node, whose counts may be null, or
    another member of the union. *)
Inductive AssetNodeOrError : Type :=
| AssetNode (partitionKeysByDimension : list PartitionHealthDimension)
            (partitionMaterializationCounts : option MaterializationCounts)
| AssetNotFoundError.

(** The object [loadPartitionHealthData] returns.  Its three query functions
    close over [dimensions] and [stateByKey]; here they are functions of the
    record. *)
Record PartitionHealthData : Type := {
  assetKey : AssetKey;
  dimensions : list PartitionHealthDimension;
  stateByKey : list (string * JsVal)
}.

(** [count > 0 ? PartitionState.SUCCESS : PartitionState.MISSING] *)
Definition stateOfCount (count : Z) : PartitionState :=
  if (0 <? count)%Z then SUCCESS else MISSING.

(** [dimensions[d].partitionKeys[idx]]: a [TypeError] when [dimensions[d]] is
    undefined, [undefined] when the key list is too short. *)
Definition partitionKeyAt (dims : list PartitionHealthDimension) (d idx : nat)
  : Outcome (option string) :=
  match nth_error dims d with
  | None => Throw TypeError
  | Some dim => Ret (nth_error (partitionKeys dim) idx)
  end.

(** The entries of one level: [counts.map((count, idx) =>
    [dimensions[d].partitionKeys[idx], count > 0 ? SUCCESS : MISSING])]. *)
Definition stateEntries (dims : list PartitionHealthDimension) (d : nat) (counts : list Z)
  : Outcome (list (string * JsVal)) :=
  mapiM (fun count idx =>
           k <- partitionKeyAt dims d idx ;;
           Ret (propertyKey k, VState (stateOfCount count)))
        counts.

Definition buildStateByKey (dims : list PartitionHealthDimension)
  (counts : MaterializationCounts) : Outcome (list (string * JsVal)) :=
  match counts with
  | MaterializationCountSingleDimension cs =>
      es <- stateEntries dims 0 cs ;;
      Ret (Object_fromEntries es)
  | MaterializationCountGroupedByDimension grouped =>
      es <- mapiM (fun dim0 idx0 =>
                     k0 <- partitionKeyAt dims 0 idx0 ;;
                     inner <- stateEntries dims 1 dim0 ;;
                     Ret (propertyKey k0, VObject (Object_fromEntries inner)))
                  grouped ;;
      Ret (Object_fromEntries es)
  end.

(** [loadPartitionHealthData], from the query's answer on. *)
Definition loadPartitionHealthData (loadKey : AssetKey) (data : AssetNodeOrError)
  : Outcome PartitionHealthData :=
  let dims :=
    match data with
    | AssetNode ds _ => ds
    | AssetNotFoundError => []
    end in
  let counts :=
    match data with
    | AssetNode _ (Some c) => c
    | _ => MaterializationCountSingleDimension []
    end in
  sbk <- buildStateByKey dims counts ;;
  Ret {| assetKey := loadKey; dimensions := dims; stateByKey := sbk |}.

(** [dimensionKeys.reduce((counts, dimensionKey) => counts[dimensionKey],
    stateByKey)] *)
Definition stateForKey (h : PartitionHealthData) (dimensionKeys : list string)
  : Outcome JsVal :=
  fold_left (fun counts dimensionKey => c <- counts ;; getProp c dimensionKey)
            dimensionKeys (Ret (VObject (stateByKey h))).

(** Modelled from the spec: [mergedStates] of [./MultipartitioningSupport]
    is not among the source files.  The state merger returns [MISSING] when
    every input is [MISSING], [SUCCESS] when every input is [SUCCESS],
    [SUCCESS_MISSING] for any mixture, and fails with [InvalidArgument] on an
    empty collection. *)
Definition mergedStates (states : list PartitionState) : Outcome PartitionState :=
  match states with
  | [] => Throw InvalidArgument
  | _ :: _ =>
      if forallb (PartitionState_eqb MISSING) states then Ret MISSING
      else if forallb (PartitionState_eqb SUCCESS) states then Ret SUCCESS
      else Ret SUCCESS_MISSING
  end.

(** The states among a list of values, when they all are states. *)
Fixpoint asStates (vs : list JsVal) : option (list PartitionState) :=
  match vs with
  | [] => Some []
  | VState s :: vs' =>
      match asStates vs' with
      | Some ss => Some (s :: ss)
      | None => None
      end
  | _ :: _ => None
  end.

(** The call [mergedStates(values)] as the index makes it. *)
Definition mergedStatesOf (values : list JsVal) : Outcome JsVal :=
  match asStates values with
  | Some states => s <- mergedStates states ;; Ret (VState s)
  | None => OutOfModel
  end.

Definition stateForPartialKey (h : PartitionHealthData) (dimensionKeys : list string)
  : Outcome JsVal :=
  if Nat.eqb (List.length dimensionKeys) (List.length (dimensions h))
  then stateForKey h dimensionKeys
  else
    row <- getProp (VObject (stateByKey h)) (propertyKey (nth_error dimensionKeys 0)) ;;
    values <- Object_values row ;;
    mergedStatesOf values.

(** [!withinParentDimensions || withinParentDimensions.includes(key)] *)
Definition withinParents (withinParentDimensions : option (list string)) (key : string)
  : bool :=
  match withinParentDimensions with
  | None => true
  | Some parents => existsb (String.eqb key) parents
  end.

Definition stateForSingleDimension (h : PartitionHealthData) (dimensionIdx : Z)
  (dimensionKey : string) (withinParentDimensions : option (list string))
  : Outcome JsVal :=
  if (dimensionIdx =? 0)%Z then stateForPartialKey h [dimensionKey]
  else if (dimensionIdx =? 1)%Z then
    values <- mapM (fun e => getProp (snd e) dimensionKey)
                   (filter (fun e => withinParents withinParentDimensions (fst e))
                           (Object_entries (stateByKey h))) ;;
    mergedStatesOf values
  else Throw (Error "stateForSingleDimension asked for third dimension").

(** *** Payloads as the fetch collaborator is specified to deliver them

    Keys are unique within a dimension; single counts are aligned with the
    keys of dimension 0; grouped counts have one row per key of dimension 0
    and each row is aligned with the keys of dimension 1. *)
Definition wellFormed (dims : list PartitionHealthDimension)
  (counts : MaterializationCounts) : Prop :=
  match dims, counts with
  | [d0], MaterializationCountSingleDimension cs =>
      NoDup (partitionKeys d0) /\
      List.length cs = List.length (partitionKeys d0)
  | [d0; d1], MaterializationCountGroupedByDimension grouped =>
      NoDup (partitionKeys d0) /\
      NoDup (partitionKeys d1) /\
      List.length grouped = List.length (partitionKeys d0) /\
      Forall (fun row => List.length row = List.length (partitionKeys d1)) grouped
  | _, _ => False
  end.

(** The object a level of aligned counts turns into. *)
Definition entriesOf (keys : list string) (counts : list Z) : list (string * JsVal) :=
  combine keys (map (fun count => VState (stateOfCount count)) counts).

Definition rowObject (keys1 : list string) (row : list Z) : JsVal :=
  VObject (entriesOf keys1 row).

(** The state an entry of [stateByKey] holds under the key [k]. *)
Definition stateUnder (k : string) (e : string * JsVal) : PartitionState :=
  match snd e with
  | VObject row =>
      match getOwn k row with
      | Some (VState s) => s
      | _ => MISSING
      end
  | _ => MISSING
  end.

(** The aggregate the design document describes for dimension 1: the state
    merger over the states at position [j] of the rows of those dimension-0
    keys that lie within [parents] (all of them when [parents] is omitted). *)
Definition aggregateAt (keys0 : list string) (grouped : list (list Z)) (j : nat)
  (parents : option (list string)) : Outcome PartitionState :=
  mergedStates
    (map (fun e => stateOfCount (nth j (snd e) 0%Z))
         (filter (fun e => withinParents parents (fst e)) (combine keys0 grouped))).

(** The index a well-formed 2-dimension payload is loaded into. *)
Definition gridIndex (loadKey : AssetKey) (d0 d1 : PartitionHealthDimension)
  (grouped : list (list Z)) : PartitionHealthData :=
  {| assetKey := loadKey; dimensions := [d0; d1];
     stateByKey := combine (partitionKeys d0)
                           (map (rowObject (partitionKeys d1)) grouped) |}.

(** An object carries exactly the given keys: it has an own entry for a key
    exactly when the key is listed; the keys [Object.entries] enumerates are
    the listed keys rearranged, and are the list itself when no listed key
    is an array index. *)
Definition carriesKeys (o : list (string * JsVal)) (keys : list string) : Prop :=
  (forall k, (exists v, getOwn k o = Some v) <-> In k keys) /\
  Permutation (map fst (Object_entries o)) keys /\
  ((forall k, In k keys -> isArrayIndex k = false) ->
   map fst (Object_entries o) = keys).

(** The index a well-formed 1-dimension payload is loaded into. *)
Definition lineIndex (loadKey : AssetKey) (d0 : PartitionHealthDimension)
  (cs : list Z) : PartitionHealthData :=
  {| assetKey := loadKey; dimensions := [d0];
     stateByKey := entriesOf (partitionKeys d0) cs |}.

(** The payloads on which building [stateByKey] evaluates
    [dimensions[d].partitionKeys] for a [d] the dimension list does not
    reach: a count with no dimension at all, or a non-empty grouped row with
    a single dimension. *)
Definition readsMissingDimension (dims : list PartitionHealthDimension)
  (counts : MaterializationCounts) : bool :=
  match counts, dims with
  | MaterializationCountSingleDimension cs, [] => negb (Nat.eqb (List.length cs) 0)
  | MaterializationCountSingleDimension _, _ :: _ => false
  | MaterializationCountGroupedByDimension grouped, [] =>
      negb (Nat.eqb (List.length grouped) 0)
  | MaterializationCountGroupedByDimension grouped, [_] =>
      existsb (fun row => negb (Nat.eqb (List.length row) 0)) grouped
  | MaterializationCountGroupedByDimension _, _ :: _ :: _ => false
  end.

End Health.

(* ===================================================================== *)
(** ** AssetPartitions.tsx: ranges, rows and the focus vector *)
(* ===================================================================== *)

Module Partitions.
Import Js Health.
Local Open Scope js_scope.

(** [AssetViewParams]: only [partition] is read or written here, the other
    fields are copied by [{...params}]. *)
Record AssetViewParams : Type := { partition : option string }.

(** A row handed to [AssetPartitionList]. *)
Record PartitionRow : Type := {
  dimensionKey : string;
  state : JsVal
}.

(** [arr.findIndex(p)], [None] for [-1]. *)
Fixpoint findIndex {A : Type} (p : A -> bool) (l : list A) : option nat :=
  match l with
  | [] => None
  | a :: l' => if p a then Some 0 else option_map S (findIndex p l')
  end.

(** [params.partition ? (ranges.length > 1 ?
      params.partition.split('|').filter(Boolean) : [params.partition]) : []] *)
Definition focusedDimensionKeys (params : AssetViewParams)
  (ranges : list PartitionHealthDimensionRange) : list string :=
  match partition params with
  | Some p =>
      if truthy p then
        if Nat.ltb 1 (List.length ranges)
        then filter truthy (split "|"%char p)
        else [p]
      else []
  | None => []
  end.

(** [stateFilters.includes(row.state)] *)
Definition includesState (stateFilters : list PartitionState) (v : JsVal) : bool :=
  match v with
  | VState s => existsb (PartitionState_eqb s) stateFilters
  | _ => false
  end.

(** [ranges[idx - 1]?.selected] *)
Definition parentSelection (ranges : list PartitionHealthDimensionRange) (idx : nat)
  : option (list string) :=
  match idx with
  | O => None
  | S i => option_map selected (nth_error ranges i)
  end.

Section Explorer.

(** [isTimeseriesPartition] of [./MultipartitioningSupport] is not among the
    source files; the component only relies on it being a test on the first
    key of a list ([undefined] when the list is empty). *)
Variable isTimeseriesPartition : option string -> bool.

Definition isTimeRange (r : PartitionHealthDimensionRange) : bool :=
  isTimeseriesPartition (nth_error (partitionKeys (dimension r)) 0).

Definition timeRangeIdx (ranges : list PartitionHealthDimensionRange) : option nat :=
  findIndex isTimeRange ranges.

(** [timeRangeIdx !== -1 ? ranges[timeRangeIdx] : null] *)
Definition timeRange (ranges : list PartitionHealthDimensionRange)
  : option PartitionHealthDimensionRange :=
  match timeRangeIdx ranges with
  | Some i => nth_error ranges i
  | None => None
  end.

Definition dimensionKeysOrdered (range : PartitionHealthDimensionRange) : list string :=
  if isTimeseriesPartition (nth_error (selected range) 0)
  then rev (selected range)
  else selected range.

(** The state of one row: the conditional inside [dimensionRowsForRange]. *)
Definition rowState (assetHealth : PartitionHealthData)
  (ranges : list PartitionHealthDimensionRange) (focused : list string)
  (idx : nat) (key : string) : Outcome JsVal :=
  if Nat.leb idx (List.length focused)
  then stateForPartialKey assetHealth (firstn idx focused ++ [key])
  else stateForSingleDimension assetHealth (Z.of_nat idx) key (parentSelection ranges idx).

(** [timeRange && timeRange.selected.length === 0] *)
Definition timeRangeIsEmpty (ranges : list PartitionHealthDimensionRange) : bool :=
  match timeRange ranges with
  | Some tr => Nat.eqb (List.length (selected tr)) 0
  | None => false
  end.

Definition dimensionRowsForRange (assetHealth : PartitionHealthData)
  (ranges : list PartitionHealthDimensionRange) (params : AssetViewParams)
  (stateFilters : list PartitionState)
  (range : PartitionHealthDimensionRange) (idx : nat) : Outcome (list PartitionRow) :=
  if timeRangeIsEmpty ranges then Ret []
  else
    rows <- mapM (fun key =>
                    st <- rowState assetHealth ranges
                                   (focusedDimensionKeys params ranges) idx key ;;
                    Ret {| dimensionKey := key; state := st |})
                 (dimensionKeysOrdered range) ;;
    Ret (filter (fun row => includesState stateFilters (state row)) rows).

(** [dimensionKeysOrdered(ranges[ii])[0]] *)
Definition firstDisplayedKey (ranges : list PartitionHealthDimensionRange) (ii : nat)
  : Outcome (option string) :=
  match nth_error ranges ii with
  | None => Throw TypeError
  | Some r => Ret (nth_error (dimensionKeysOrdered r) 0)
  end.

(** [focusedDimensionKeys[ii] || dimensionKeysOrdered(ranges[ii])[0]] *)
Definition focusOrDefault (focused : list string)
  (ranges : list PartitionHealthDimensionRange) (ii : nat) : Outcome (option string) :=
  match nth_error focused ii with
  | Some s => if truthy s then Ret (Some s) else firstDisplayedKey ranges ii
  | None => firstDisplayedKey ranges ii
  end.

(** The array the callback [setFocusedDimensionKey] of column [idx] builds;
    [None] is an [undefined] element. *)
Definition nextFocusedDimensionKeys (focused : list string)
  (ranges : list PartitionHealthDimensionRange) (idx : nat)
  (key : option string) : Outcome (list (option string)) :=
  defaults <- mapM (focusOrDefault focused ranges) (seq 0 idx) ;;
  Ret (defaults ++
       match key with
       | Some k => if truthy k then [Some k] else []
       | None => []
       end).

(** The params handed to [setParams]. *)
Definition setFocusedDimensionKey (params : AssetViewParams)
  (ranges : list PartitionHealthDimensionRange) (idx : nat)
  (key : option string) : Outcome AssetViewParams :=
  next <- nextFocusedDimensionKeys (focusedDimensionKeys params ranges) ranges idx key ;;
  Ret {| partition := Some (join "|" next) |}.

(** The [partitionStateForKey] callback handed to [PartitionRangeWizard],
    which is rendered when [timeRange] is not null:
    [assetHealth.stateForSingleDimension(timeRangeIdx, dimensionKey)]. *)
Definition partitionStateForKey (assetHealth : PartitionHealthData)
  (ranges : list PartitionHealthDimensionRange) (key : string)
  : option (Outcome JsVal) :=
  match timeRangeIdx ranges with
  | Some i => Some (stateForSingleDimension assetHealth (Z.of_nat i) key None)
  | None => None
  end.

End Explorer.

(** [params.partition && focusedDimensionKeys.length === ranges.length]:
    whether the detail pane loads the focused partition. *)
Definition detailShown (params : AssetViewParams)
  (ranges : list PartitionHealthDimensionRange) : bool :=
  match partition params with
  | Some p =>
      truthy p &&
      Nat.eqb (List.length (focusedDimensionKeys params ranges)) (List.length ranges)
  | None => false
  end.

End Partitions.

(* ===================================================================== *)
(** ** usePartitionHealthData: the hook as a transition system

    One mounted instance of the hook.  [useState] keeps [result];
    [useMemo(f, [client, missingKeyJSON])] runs [f] on the first render and
    on every render where one of the two dependencies differs from the
    previous render.  Asset keys are compared through [JSON.stringify],
    which is injective on them, so the model compares the keys. *)
(* ===================================================================== *)

Module Hook.
Import Js Health.

Definition AssetKey_eqb (a b : AssetKey) : bool :=
  if list_eq_dec string_dec (path a) (path b) then true else false.

Record HookState : Type := {
  result : list PartitionHealthData;
  (** dependencies of the last run of the memo, [None] before the first render *)
  memoDeps : option (nat * option AssetKey);
  (** queries sent and not yet settled, oldest first *)
  inFlight : list AssetKey;
  (** every query sent so far, oldest first *)
  fetches : list AssetKey
}.

Definition initial : HookState :=
  {| result := []; memoDeps := None; inFlight := []; fetches := [] |}.

Inductive Event : Type :=
| Render (client : nat) (assetKeys : list AssetKey)
| QueryAnswered (n : nat) (data : AssetNodeOrError)
| QueryFailed (n : nat).

(** [assetKeyJSONs.find((k) => !result.some((r) =>
      JSON.stringify(r.assetKey) === k))] *)
Definition missingKeyJSON (assetKeys : list AssetKey) (res : list PartitionHealthData)
  : option AssetKey :=
  find (fun k => negb (existsb (fun r => AssetKey_eqb (assetKey r) k) res)) assetKeys.

Definition sameDeps (a b : nat * option AssetKey) : bool :=
  Nat.eqb (fst a) (fst b) &&
  match snd a, snd b with
  | Some x, Some y => AssetKey_eqb x y
  | None, None => true
  | _, _ => false
  end.

Definition depsChanged (prev : option (nat * option AssetKey))
  (now : nat * option AssetKey) : bool :=
  match prev with
  | None => true
  | Some p => negb (sameDeps p now)
  end.

Definition removeNth {A : Type} (n : nat) (l : list A) : list A :=
  firstn n l ++ skipn (S n) l.

(** One render of the hook: the memo body sends a query for the first
    missing key when its dependencies changed. *)
Definition render (client : nat) (assetKeys : list AssetKey) (st : HookState)
  : HookState :=
  let missing := missingKeyJSON assetKeys (result st) in
  if depsChanged (memoDeps st) (client, missing) then
    match missing with
    | None =>
        {| result := result st; memoDeps := Some (client, missing);
           inFlight := inFlight st; fetches := fetches st |}
    | Some loadKey =>
        {| result := result st; memoDeps := Some (client, missing);
           inFlight := inFlight st ++ [loadKey];
           fetches := fetches st ++ [loadKey] |}
    end
  else st.

(** What the hook returns from a render:
    [result.filter((r) => assetKeyJSONs.includes(JSON.stringify(r.assetKey)))] *)
Definition observed (assetKeys : list AssetKey) (st : HookState)
  : list PartitionHealthData :=
  filter (fun r => existsb (AssetKey_eqb (assetKey r)) assetKeys) (result st).

Definition step (st : HookState) (ev : Event) : HookState :=
  match ev with
  | Render client assetKeys => render client assetKeys st
  | QueryAnswered n data =>
      match nth_error (inFlight st) n with
      | None => st
      | Some loadKey =>
          match loadPartitionHealthData loadKey data with
          | Ret loaded =>
              {| result := result st ++ [loaded]; memoDeps := memoDeps st;
                 inFlight := removeNth n (inFlight st); fetches := fetches st |}
          | _ =>
              {| result := result st; memoDeps := memoDeps st;
                 inFlight := removeNth n (inFlight st); fetches := fetches st |}
          end
      end
  | QueryFailed n =>
      {| result := result st; memoDeps := memoDeps st;
         inFlight := removeNth n (inFlight st); fetches := fetches st |}
  end.

Definition run (events : list Event) : HookState :=
  fold_left step events initial.

(** Number of outstanding queries for a key. *)
Definition outstanding (k : AssetKey) (st : HookState) : nat :=
  List.length (filter (AssetKey_eqb k) (inFlight st)).

(** Number of queries ever sent for a key. *)
Definition fetchCount (k : AssetKey) (st : HookState) : nat :=
  List.length (filter (AssetKey_eqb k) (fetches st)).

Definition isRenderOf (client : nat) (assetKeys : list AssetKey) (ev : Event) : Prop :=
  match ev with
  | Render c ks => c = client /\ ks = assetKeys
  | _ => True
  end.

(** A schedule in which each render is followed by the answer to the one
    query it may have sent, before the next render. *)
Definition rounds (client : nat) (assetKeys : list AssetKey)
  (answers : list AssetNodeOrError) : list Event :=
  flat_map (fun data => [Render client assetKeys; QueryAnswered 0 data]) answers.

(** A key was asked for by some render of the trace. *)
Definition requestedIn (events : list Event) (k : AssetKey) : Prop :=
  exists client assetKeys, In (Render client assetKeys) events /\ In k assetKeys.

(** Some entry of [result] carries the key. *)
Definition resolved (k : AssetKey) (res : list PartitionHealthData) : Prop :=
  exists r, In r res /\ assetKey r = k.

(** What holds of every state reached while the renders pass [client] and
    [assetKeys]: the queries sent are pairwise distinct, at most one is
    outstanding, an outstanding key is the one the memo last ran for and is
    not resolved, a key queried earlier is resolved or is the memo's, and
    the memo's key is resolved or still the first missing one. *)
Definition consistent (client : nat) (assetKeys : list AssetKey) (st : HookState)
  : Prop :=
  NoDup (fetches st) /\
  List.length (inFlight st) <= 1 /\
  (forall k, In k (inFlight st) ->
             memoDeps st = Some (client, Some k) /\ ~ resolved k (result st)) /\
  (forall k, In k (fetches st) ->
             resolved k (result st) \/ memoDeps st = Some (client, Some k)) /\
  (forall c k, memoDeps st = Some (c, Some k) ->
               resolved k (result st) \/ missingKeyJSON assetKeys (result st) = Some k).

End Hook.

(* ===================================================================== *)
(** ** Sample data used by the examples *)
(* ===================================================================== *)

Module Samples.
Import Js Health Partitions.

(** A recognizer of day keys: four digits, a dash, two digits, a dash and
    two digits at the start of the key; [undefined] is not a day key. *)
Definition isDigit (c : ascii) : bool :=
  match digit c with Some _ => true | None => false end.

Definition isDayKey (k : option string) : bool :=
  match k with
  | Some (String y1 (String y2 (String y3 (String y4 (String d1
      (String m1 (String m2 (String d2 (String a1 (String a2 _)))))))))) =>
      isDigit y1 && isDigit y2 && isDigit y3 && isDigit y4 &&
      Ascii.eqb d1 "-"%char && isDigit m1 && isDigit m2 &&
      Ascii.eqb d2 "-"%char && isDigit a1 && isDigit a2
  | _ => false
  end.

Definition keyA : AssetKey := {| path := ["warehouse"; "orders"] |}.
Definition keyB : AssetKey := {| path := ["warehouse"; "users"] |}.

Definition letters : PartitionHealthDimension :=
  {| name := "letters"; partitionKeys := ["a"; "b"] |}.
Definition marks : PartitionHealthDimension :=
  {| name := "marks"; partitionKeys := ["x"; "y"] |}.
Definition abc : PartitionHealthDimension :=
  {| name := "default"; partitionKeys := ["a"; "b"; "c"] |}.
Definition days : PartitionHealthDimension :=
  {| name := "day"; partitionKeys := ["2022-01-01"; "2022-01-02"] |}.
Definition weeks : PartitionHealthDimension :=
  {| name := "week"; partitionKeys := ["2022-01-03"] |}.

(** 1-dimension payload with keys a, b, c and counts 0, 2, 0. *)
Definition abcPayload : AssetNodeOrError :=
  AssetNode [abc] (Some (MaterializationCountSingleDimension [0; 2; 0]%Z)).

Definition abcHealth : PartitionHealthData :=
  {| assetKey := keyA; dimensions := [abc];
     stateByKey := [("a", VState MISSING); ("b", VState SUCCESS); ("c", VState MISSING)] |}.

(** 2-dimension payload a, b x x, y with grouped counts [[1,0],[0,0]]. *)
Definition gridPayload : AssetNodeOrError :=
  AssetNode [letters; marks]
            (Some (MaterializationCountGroupedByDimension [[1; 0]; [0; 0]]%Z)).

Definition gridHealth : PartitionHealthData :=
  {| assetKey := keyA; dimensions := [letters; marks];
     stateByKey :=
       [("a", VObject [("x", VState SUCCESS); ("y", VState MISSING)]);
        ("b", VObject [("x", VState MISSING); ("y", VState MISSING)])] |}.

(** Two day-keyed dimensions, one materialized coordinate. *)
Definition calendarPayload : AssetNodeOrError :=
  AssetNode [days; weeks]
            (Some (MaterializationCountGroupedByDimension [[1]; [0]]%Z)).

Definition calendarHealth : PartitionHealthData :=
  {| assetKey := keyA; dimensions := [days; weeks];
     stateByKey :=
       [("2022-01-01", VObject [("2022-01-03", VState SUCCESS)]);
        ("2022-01-02", VObject [("2022-01-03", VState MISSING)])] |}.

Definition allStates : list PartitionState := [MISSING; SUCCESS_MISSING; SUCCESS].

(** Ranges over the calendar asset: one day selected, no week selected. *)
Definition oneDay : PartitionHealthDimensionRange :=
  {| dimension := days; selected := ["2022-01-01"] |}.
Definition noWeek : PartitionHealthDimensionRange :=
  {| dimension := weeks; selected := [] |}.
Definition noDay : PartitionHealthDimensionRange :=
  {| dimension := days; selected := [] |}.

(** Ranges over the grid asset, everything selected. *)
Definition allLetters : PartitionHealthDimensionRange :=
  {| dimension := letters; selected := ["a"; "b"] |}.
Definition allMarks : PartitionHealthDimensionRange :=
  {| dimension := marks; selected := ["x"; "y"] |}.
Definition allAbc : PartitionHealthDimensionRange :=
  {| dimension := abc; selected := ["a"; "b"; "c"] |}.

Definition noFocus : AssetViewParams := {| partition := None |}.

(** Both days of the calendar asset selected, oldest first. *)
Definition bothDays : PartitionHealthDimensionRange :=
  {| dimension := days; selected := ["2022-01-01"; "2022-01-02"] |}.

End Samples.

(* ===================================================================== *)
(** ** Facts about the JavaScript layer *)
(* ===================================================================== *)

Module JsFacts.
Import Js.
Local Open Scope js_scope.

Lemma mapM_ret_map {A B : Type} (f : A -> Outcome B) (g : A -> B) (l : list A) :
  (forall a, In a l -> f a = Ret (g a)) ->
  mapM f l = Ret (map g l).
Proof.
  induction l as [|a l IH]; intros Hf; simpl.
  - reflexivity.
  - rewrite (Hf a (or_introl eq_refl)). simpl.
    rewrite IH by (intros b Hb; apply Hf; right; exact Hb).
    reflexivity.
Qed.

Lemma mapM_ext {A B : Type} (f g : A -> Outcome B) (l : list A) :
  (forall a, In a l -> f a = g a) ->
  mapM f l = mapM g l.
Proof.
  induction l as [|a l IH]; intros Hfg; simpl.
  - reflexivity.
  - rewrite (Hfg a (or_introl eq_refl)).
    rewrite IH by (intros b Hb; apply Hfg; right; exact Hb).
    reflexivity.
Qed.

Lemma mapiM_from_ext {A B : Type} (f g : A -> nat -> Outcome B) (l : list A) :
  forall i, (forall a j, f a j = g a j) ->
  mapiM_from f i l = mapiM_from g i l.
Proof.
  induction l as [|a l IH]; intros i Hfg; simpl.
  - reflexivity.
  - rewrite Hfg, (IH (S i) Hfg). reflexivity.
Qed.

Lemma truthy_not_empty (s : string) : truthy s = true <-> s <> "".
Proof.
  destruct s; simpl; split; intros H; try reflexivity; try discriminate.
  exfalso; apply H; reflexivity.
Qed.

Lemma combine_map_fst_aligned {A B : Type} (l : list A) (l' : list B) :
  List.length l = List.length l' -> map fst (combine l l') = l.
Proof.
  revert l'. induction l as [|a l IH]; intros [|b l'] Hlen; simpl in *;
    try reflexivity; try discriminate.
  f_equal. apply IH. lia.
Qed.

Lemma getOwn_absent {V : Type} (k : string) (o : list (string * V)) :
  ~ In k (map fst o) -> getOwn k o = None.
Proof.
  induction o as [|[k' v] o IH]; simpl; intros Hnot.
  - reflexivity.
  - destruct (String.eqb_spec k' k) as [->|Hne].
    + exfalso. apply Hnot. left. reflexivity.
    + apply IH. intros Hin. apply Hnot. right. exact Hin.
Qed.

Lemma getOwn_combine_nth {V : Type} (keys : list string) (vals : list V)
  (i : nat) (k : string) (v : V) :
  NoDup keys ->
  nth_error keys i = Some k -> nth_error vals i = Some v ->
  getOwn k (combine keys vals) = Some v.
Proof.
  revert vals i. induction keys as [|k0 keys IH]; intros vals i Hnd Hk Hv.
  - destruct i; discriminate.
  - destruct vals as [|v0 vals]; [destruct i; discriminate|].
    inversion Hnd as [|? ? Hnotin Hnd']; subst.
    destruct i as [|i]; simpl in *.
    + injection Hk as ->. injection Hv as ->. rewrite String.eqb_refl. reflexivity.
    + destruct (String.eqb_spec k0 k) as [->|Hne].
      * exfalso. apply Hnotin. exact (nth_error_In _ _ Hk).
      * exact (IH vals i Hnd' Hk Hv).
Qed.

Lemma setProp_fresh {V : Type} (k : string) (v : V) (o : list (string * V)) :
  ~ In k (map fst o) -> setProp k v o = o ++ [(k, v)].
Proof.
  induction o as [|[k' v'] o IH]; simpl; intros Hnot.
  - reflexivity.
  - destruct (String.eqb_spec k' k) as [->|Hne].
    + exfalso. apply Hnot. left. reflexivity.
    + rewrite IH; [reflexivity|]. intros Hin. apply Hnot. right. exact Hin.
Qed.

Lemma fold_setProp_distinct {V : Type} (entries acc : list (string * V)) :
  NoDup (map fst (acc ++ entries)) ->
  fold_left (fun o e => setProp (fst e) (snd e) o) entries acc = acc ++ entries.
Proof.
  revert acc. induction entries as [|[k v] entries IH]; intros acc Hnd; simpl.
  - rewrite app_nil_r. reflexivity.
  - rewrite setProp_fresh.
    + rewrite IH; rewrite <- app_assoc; simpl; [reflexivity|exact Hnd].
    + rewrite map_app in Hnd. simpl in Hnd.
      apply NoDup_remove_2 in Hnd. intros Hin. apply Hnd.
      apply in_or_app. left. exact Hin.
Qed.

(** With distinct keys [Object.fromEntries] keeps the entries as given. *)
Lemma Object_fromEntries_distinct {V : Type} (entries : list (string * V)) :
  NoDup (map fst entries) -> Object_fromEntries entries = entries.
Proof.
  intros Hnd. unfold Object_fromEntries.
  rewrite fold_setProp_distinct; [reflexivity|exact Hnd].
Qed.

(** An index-carrying map whose callback never throws and keys each element
    by position, over elements aligned with the keys. *)
Lemma mapiM_from_aligned {A : Type} (mk : A -> JsVal)
  (f : A -> nat -> Outcome (string * JsVal)) (allKeys : list string) :
  forall (l : list A) (keys : list string) (i : nat),
    (forall j, nth_error allKeys (i + j) = nth_error keys j) ->
    List.length l = List.length keys ->
    (forall a idx, In a l -> f a idx = Ret (propertyKey (nth_error allKeys idx), mk a)) ->
    mapiM_from f i l = Ret (combine keys (map mk l)).
Proof.
  induction l as [|a l IH]; intros keys i Hshift Hlen Hf.
  - destruct keys; [reflexivity|discriminate].
  - destruct keys as [|k keys]; [discriminate|]. simpl.
    rewrite (Hf a i (or_introl eq_refl)). simpl.
    rewrite (IH keys (S i)).
    + simpl. specialize (Hshift 0). rewrite Nat.add_0_r in Hshift.
      rewrite Hshift. reflexivity.
    + intros j. specialize (Hshift (S j)).
      rewrite Nat.add_succ_r in Hshift. exact Hshift.
    + simpl in Hlen. lia.
    + intros b idx Hb. apply Hf. right. exact Hb.
Qed.

Lemma mapiM_from_outcomes {A B : Type} (f : A -> nat -> Outcome B) (l : list A) :
  (forall a idx, (exists b, f a idx = Ret b) \/ f a idx = Throw TypeError) ->
  forall i, (exists bs, mapiM_from f i l = Ret bs) \/ mapiM_from f i l = Throw TypeError.
Proof.
  intros Hf. induction l as [|a l IH]; intros i; simpl.
  - left. eexists. reflexivity.
  - destruct (Hf a i) as [[b ->]| ->]; simpl; [|right; reflexivity].
    destruct (IH (S i)) as [[bs ->]| ->]; simpl; [left; eexists|right]; reflexivity.
Qed.

Lemma mapiM_from_total {A B : Type} (f : A -> nat -> Outcome B) (l : list A) :
  (forall a idx, exists b, f a idx = Ret b) ->
  forall i, exists bs, mapiM_from f i l = Ret bs.
Proof.
  intros Hf. induction l as [|a l IH]; intros i; simpl.
  - eexists. reflexivity.
  - destruct (Hf a i) as [b ->]. destruct (IH (S i)) as [bs ->].
    simpl. eexists. reflexivity.
Qed.

(** *** Own property order is a rearrangement of creation order *)

Lemma insertByIndex_perm {V : Type} (e : string * V) (l : list (string * V)) :
  Permutation (insertByIndex e l) (e :: l).
Proof.
  induction l as [|e' l IH]; simpl.
  - apply Permutation_refl.
  - destruct (indexOf (fst e) <=? indexOf (fst e'))%N.
    + apply Permutation_refl.
    + apply Permutation_trans with (e' :: e :: l).
      * apply perm_skip. exact IH.
      * apply perm_swap.
Qed.

Lemma sortByIndex_perm {V : Type} (l : list (string * V)) :
  Permutation (sortByIndex l) l.
Proof.
  induction l as [|e l IH]; simpl.
  - apply Permutation_refl.
  - apply Permutation_trans with (e :: sortByIndex l).
    + apply insertByIndex_perm.
    + apply perm_skip. exact IH.
Qed.

Lemma filter_split_perm {A : Type} (p : A -> bool) (l : list A) :
  Permutation (filter p l ++ filter (fun a => negb (p a)) l) l.
Proof.
  induction l as [|a l IH]; simpl.
  - apply Permutation_refl.
  - destruct (p a); simpl.
    + apply perm_skip. exact IH.
    + apply Permutation_sym. apply Permutation_cons_app.
      apply Permutation_sym. exact IH.
Qed.

Lemma Object_entries_perm {V : Type} (o : list (string * V)) :
  Permutation (Object_entries o) o.
Proof.
  unfold Object_entries.
  apply Permutation_trans
    with (filter (fun e => isArrayIndex (fst e)) o
          ++ filter (fun e => negb (isArrayIndex (fst e))) o).
  - apply Permutation_app_tail. apply sortByIndex_perm.
  - apply (filter_split_perm (fun e : string * V => isArrayIndex (fst e))).
Qed.

Lemma filter_perm {A : Type} (p : A -> bool) (l l' : list A) :
  Permutation l l' -> Permutation (filter p l) (filter p l').
Proof.
  induction 1 as [|a l l' _ IH|a b l|l l' l'' _ IH1 _ IH2]; simpl.
  - apply Permutation_refl.
  - destruct (p a); [apply perm_skip|]; exact IH.
  - destruct (p a), (p b); try apply Permutation_refl. apply perm_swap.
  - exact (Permutation_trans IH1 IH2).
Qed.

Lemma forallb_perm {A : Type} (p : A -> bool) (l l' : list A) :
  Permutation l l' -> forallb p l = forallb p l'.
Proof.
  induction 1 as [|a l l' _ IH|a b l|l l' l'' _ IH1 _ IH2]; simpl.
  - reflexivity.
  - rewrite IH. reflexivity.
  - destruct (p a), (p b); reflexivity.
  - rewrite IH1. exact IH2.
Qed.

End JsFacts.

(* ===================================================================== *)
(** ** Facts about the health index *)
(* ===================================================================== *)

Module HealthFacts.
Import Js Health JsFacts Samples.
Local Open Scope js_scope.

Lemma getProp_own (o : list (string * JsVal)) (k : string) (v : JsVal) :
  getOwn k o = Some v -> getProp (VObject o) k = Ret v.
Proof. intros H. unfold getProp. rewrite H. reflexivity. Qed.

Lemma getProp_absent (o : list (string * JsVal)) (k : string) :
  ~ In k (map fst o) -> inheritedName k = false ->
  getProp (VObject o) k = Ret VUndefined.
Proof.
  intros Hnot Hinh. unfold getProp.
  rewrite (getOwn_absent k o Hnot), Hinh. reflexivity.
Qed.

Lemma stateForKey_one (h : PartitionHealthData) (k : string) :
  stateForKey h [k] = getProp (VObject (stateByKey h)) k.
Proof. reflexivity. Qed.

Lemma stateForKey_two (h : PartitionHealthData) (k0 k1 : string) :
  stateForKey h [k0; k1]
  = (row <- getProp (VObject (stateByKey h)) k0 ;; getProp row k1).
Proof. reflexivity. Qed.

Lemma entriesOf_keys (keys : list string) (cs : list Z) :
  List.length cs = List.length keys -> map fst (entriesOf keys cs) = keys.
Proof.
  intros Hlen. unfold entriesOf. apply combine_map_fst_aligned.
  rewrite length_map. symmetry. exact Hlen.
Qed.

Lemma stateEntries_aligned (dims : list PartitionHealthDimension) (d : nat)
  (dim : PartitionHealthDimension) (cs : list Z) :
  nth_error dims d = Some dim ->
  List.length cs = List.length (partitionKeys dim) ->
  stateEntries dims d cs = Ret (entriesOf (partitionKeys dim) cs).
Proof.
  intros Hd Hlen. unfold stateEntries, mapiM, entriesOf.
  apply (mapiM_from_aligned (fun c => VState (stateOfCount c)) _ (partitionKeys dim)).
  - intros j. reflexivity.
  - exact Hlen.
  - intros a idx _. unfold partitionKeyAt. rewrite Hd. reflexivity.
Qed.

Lemma load_single_wellFormed (loadKey : AssetKey) (d0 : PartitionHealthDimension)
  (cs : list Z) :
  wellFormed [d0] (MaterializationCountSingleDimension cs) ->
  loadPartitionHealthData loadKey
    (AssetNode [d0] (Some (MaterializationCountSingleDimension cs)))
  = Ret {| assetKey := loadKey; dimensions := [d0];
           stateByKey := entriesOf (partitionKeys d0) cs |}.
Proof.
  intros [Hnd Hlen]. unfold loadPartitionHealthData, buildStateByKey.
  rewrite (stateEntries_aligned [d0] 0 d0 cs eq_refl Hlen). simpl.
  rewrite Object_fromEntries_distinct; [reflexivity|].
  rewrite entriesOf_keys by exact Hlen. exact Hnd.
Qed.

Lemma load_grouped_wellFormed (loadKey : AssetKey) (d0 d1 : PartitionHealthDimension)
  (grouped : list (list Z)) :
  wellFormed [d0; d1] (MaterializationCountGroupedByDimension grouped) ->
  loadPartitionHealthData loadKey
    (AssetNode [d0; d1] (Some (MaterializationCountGroupedByDimension grouped)))
  = Ret {| assetKey := loadKey; dimensions := [d0; d1];
           stateByKey :=
             combine (partitionKeys d0) (map (rowObject (partitionKeys d1)) grouped) |}.
Proof.
  intros (Hnd0 & Hnd1 & Hlen & Hrows).
  unfold loadPartitionHealthData, buildStateByKey, mapiM.
  rewrite (mapiM_from_aligned (rowObject (partitionKeys d1)) _ (partitionKeys d0)
             grouped (partitionKeys d0) 0).
  - simpl. rewrite Object_fromEntries_distinct; [reflexivity|].
    rewrite combine_map_fst_aligned; [exact Hnd0|].
    rewrite length_map. symmetry. exact Hlen.
  - intros j. reflexivity.
  - exact Hlen.
  - intros row idx Hrow.
    rewrite Forall_forall in Hrows. specialize (Hrows row Hrow).
    unfold partitionKeyAt at 1. simpl.
    rewrite (stateEntries_aligned [d0; d1] 1 d1 row eq_refl Hrows). simpl.
    rewrite Object_fromEntries_distinct; [reflexivity|].
    rewrite entriesOf_keys by exact Hrows. exact Hnd1.
Qed.

Lemma stateOfCount_cases (c : Z) :
  (stateOfCount c = SUCCESS <-> (0 < c)%Z) /\
  (stateOfCount c = MISSING <-> (c <= 0)%Z).
Proof.
  unfold stateOfCount. destruct (Z.ltb_spec 0 c); split; split; intros H';
    try reflexivity; try discriminate; try lia.
Qed.

Lemma abcHealth_loaded : loadPartitionHealthData keyA abcPayload = Ret abcHealth.
Proof. reflexivity. Qed.

Lemma gridHealth_loaded : loadPartitionHealthData keyA gridPayload = Ret gridHealth.
Proof. reflexivity. Qed.

Lemma abc_wellFormed :
  wellFormed [abc] (MaterializationCountSingleDimension [0; 2; 0]%Z).
Proof.
  simpl. split; [|reflexivity].
  repeat constructor; simpl; intuition discriminate.
Qed.

Lemma grid_wellFormed :
  wellFormed [letters; marks]
             (MaterializationCountGroupedByDimension [[1; 0]; [0; 0]]%Z).
Proof.
  simpl. repeat split.
  - repeat constructor; simpl; intuition discriminate.
  - repeat constructor; simpl; intuition discriminate.
  - repeat constructor.
Qed.

(** C5: for every dimension index of 2 or more, every key and every parent
    restriction (given or omitted), [stateForSingleDimension] throws
    [Error('stateForSingleDimension asked for third dimension')] and returns
    no state. *)
Theorem stateForSingleDimension_third_dimension_throws
  (h : PartitionHealthData) (dimensionIdx : Z) (dimensionKey : string)
  (withinParentDimensions : option (list string)) :
  (2 <= dimensionIdx)%Z ->
  stateForSingleDimension h dimensionIdx dimensionKey withinParentDimensions
  = Throw (Error "stateForSingleDimension asked for third dimension").
Proof.
  intros Hidx. unfold stateForSingleDimension.
  destruct (Z.eqb_spec dimensionIdx 0) as [H0|_]; [lia|].
  destruct (Z.eqb_spec dimensionIdx 1) as [H1|_]; [lia|].
  reflexivity.
Qed.

Lemma stateForSingleDimension_third_dimension_throws_witness :
  (2 <= 2)%Z /\
  stateForSingleDimension gridHealth 2 "x" (Some ["a"])
  = Throw (Error "stateForSingleDimension asked for third dimension").
Proof.
  split; [lia|].
  apply (stateForSingleDimension_third_dimension_throws gridHealth 2 "x" (Some ["a"])).
  lia.
Defined.

(** C3: for a well-formed payload the state stored at a coordinate is
    [SUCCESS] exactly when the raw count at that coordinate is greater than
    0 and [MISSING] exactly when it is not, in the 1-dimension and in the
    2-dimension shape; for keys a, b, c with counts 0, 2, 0 the state of a
    is [MISSING] and the state of b is [SUCCESS]. *)
Theorem stored_state_reflects_count (loadKey : AssetKey) :
  (forall d0 cs h i k c,
      wellFormed [d0] (MaterializationCountSingleDimension cs) ->
      loadPartitionHealthData loadKey
        (AssetNode [d0] (Some (MaterializationCountSingleDimension cs))) = Ret h ->
      nth_error (partitionKeys d0) i = Some k ->
      nth_error cs i = Some c ->
      exists s, stateForKey h [k] = Ret (VState s) /\
                (s = SUCCESS <-> (0 < c)%Z) /\ (s = MISSING <-> (c <= 0)%Z)) /\
  (forall d0 d1 grouped h i j k0 k1 row c,
      wellFormed [d0; d1] (MaterializationCountGroupedByDimension grouped) ->
      loadPartitionHealthData loadKey
        (AssetNode [d0; d1] (Some (MaterializationCountGroupedByDimension grouped)))
        = Ret h ->
      nth_error (partitionKeys d0) i = Some k0 ->
      nth_error (partitionKeys d1) j = Some k1 ->
      nth_error grouped i = Some row ->
      nth_error row j = Some c ->
      exists s, stateForKey h [k0; k1] = Ret (VState s) /\
                (s = SUCCESS <-> (0 < c)%Z) /\ (s = MISSING <-> (c <= 0)%Z)) /\
  (exists h, loadPartitionHealthData loadKey abcPayload = Ret h /\
             stateForKey h ["a"] = Ret (VState MISSING) /\
             stateForKey h ["b"] = Ret (VState SUCCESS)).
Proof.
  split; [|split].
  - intros d0 cs h i k c Hwf Hload Hk Hc.
    rewrite (load_single_wellFormed loadKey d0 cs Hwf) in Hload.
    injection Hload as <-. destruct Hwf as [Hnd Hlen].
    exists (stateOfCount c). split; [|apply stateOfCount_cases].
    rewrite stateForKey_one. cbn [stateByKey]. apply getProp_own.
    unfold entriesOf. apply (getOwn_combine_nth _ _ i); [exact Hnd|exact Hk|].
    apply map_nth_error with (f := fun count => VState (stateOfCount count)).
    exact Hc.
  - intros d0 d1 grouped h i j k0 k1 row c Hwf Hload Hk0 Hk1 Hrow Hc.
    rewrite (load_grouped_wellFormed loadKey d0 d1 grouped Hwf) in Hload.
    injection Hload as <-. destruct Hwf as (Hnd0 & Hnd1 & Hlen & Hrows).
    exists (stateOfCount c). split; [|apply stateOfCount_cases].
    rewrite stateForKey_two. cbn [stateByKey].
    rewrite (getProp_own _ k0 (rowObject (partitionKeys d1) row)).
    + cbn [bind]. unfold rowObject. apply getProp_own.
      unfold entriesOf. apply (getOwn_combine_nth _ _ j); [exact Hnd1|exact Hk1|].
      apply map_nth_error with (f := fun count => VState (stateOfCount count)).
      exact Hc.
    + apply (getOwn_combine_nth _ _ i); [exact Hnd0|exact Hk0|].
      apply map_nth_error. exact Hrow.
  - eexists. split; [reflexivity|]. split; reflexivity.
Qed.

Lemma stored_state_reflects_count_witness :
  wellFormed [letters; marks]
             (MaterializationCountGroupedByDimension [[1; 0]; [0; 0]]%Z) /\
  exists s, stateForKey gridHealth ["a"; "x"] = Ret (VState s) /\
            (s = SUCCESS <-> (0 < 1)%Z) /\ (s = MISSING <-> (1 <= 0)%Z).
Proof.
  split; [exact grid_wellFormed|].
  exact (proj1 (proj2 (stored_state_reflects_count keyA))
           letters marks [[1; 0]; [0; 0]]%Z gridHealth 0 0 "a" "x" [1; 0]%Z 1%Z
           grid_wellFormed gridHealth_loaded eq_refl eq_refl eq_refl eq_refl).
Defined.

(** *** Construction never validates *)

Lemma partitionKeyAt_outcomes (dims : list PartitionHealthDimension) (d idx : nat) :
  (exists k, partitionKeyAt dims d idx = Ret k) \/
  partitionKeyAt dims d idx = Throw TypeError.
Proof.
  unfold partitionKeyAt. destruct (nth_error dims d).
  - left. eexists. reflexivity.
  - right. reflexivity.
Qed.

Lemma stateEntries_outcomes (dims : list PartitionHealthDimension) (d : nat)
  (cs : list Z) :
  (exists es, stateEntries dims d cs = Ret es) \/
  stateEntries dims d cs = Throw TypeError.
Proof.
  unfold stateEntries, mapiM. apply mapiM_from_outcomes.
  intros count idx. destruct (partitionKeyAt_outcomes dims d idx) as [[k ->]| ->].
  - left. eexists. reflexivity.
  - right. reflexivity.
Qed.

Lemma stateEntries_total (dims : list PartitionHealthDimension) (d : nat)
  (dim : PartitionHealthDimension) (cs : list Z) :
  nth_error dims d = Some dim -> exists es, stateEntries dims d cs = Ret es.
Proof.
  intros Hd. unfold stateEntries, mapiM. apply mapiM_from_total.
  intros count idx. unfold partitionKeyAt. rewrite Hd. eexists. reflexivity.
Qed.

Lemma buildStateByKey_outcomes (dims : list PartitionHealthDimension)
  (counts : MaterializationCounts) :
  (exists sbk, buildStateByKey dims counts = Ret sbk) \/
  buildStateByKey dims counts = Throw TypeError.
Proof.
  destruct counts as [cs|grouped]; unfold buildStateByKey.
  - destruct (stateEntries_outcomes dims 0 cs) as [[es ->]| ->].
    + left. eexists. reflexivity.
    + right. reflexivity.
  - unfold mapiM.
    destruct (mapiM_from_outcomes
                (fun dim0 idx0 =>
                   k0 <- partitionKeyAt dims 0 idx0 ;;
                   inner <- stateEntries dims 1 dim0 ;;
                   Ret (propertyKey k0, VObject (Object_fromEntries inner)))
                grouped) with (i := 0) as [[es Hes]|Hes].
    + intros dim0 idx0.
      destruct (partitionKeyAt_outcomes dims 0 idx0) as [[k ->]| ->];
        [|right; reflexivity].
      destruct (stateEntries_outcomes dims 1 dim0) as [[es ->]| ->].
      * left. eexists. reflexivity.
      * right. reflexivity.
    + rewrite Hes. left. eexists. reflexivity.
    + rewrite Hes. right. reflexivity.
Qed.

Lemma buildStateByKey_total (dims : list PartitionHealthDimension)
  (counts : MaterializationCounts) :
  match counts with
  | MaterializationCountSingleDimension _ => 1 <= List.length dims
  | MaterializationCountGroupedByDimension _ => 2 <= List.length dims
  end ->
  exists sbk, buildStateByKey dims counts = Ret sbk.
Proof.
  destruct counts as [cs|grouped]; intros Hdims; unfold buildStateByKey.
  - destruct dims as [|d0 dims]; [simpl in Hdims; lia|].
    destruct (stateEntries_total (d0 :: dims) 0 d0 cs eq_refl) as [es ->].
    eexists. reflexivity.
  - destruct dims as [|d0 [|d1 dims]]; try (simpl in Hdims; lia).
    unfold mapiM.
    destruct (mapiM_from_total
                (fun dim0 idx0 =>
                   k0 <- partitionKeyAt (d0 :: d1 :: dims) 0 idx0 ;;
                   inner <- stateEntries (d0 :: d1 :: dims) 1 dim0 ;;
                   Ret (propertyKey k0, VObject (Object_fromEntries inner)))
                grouped) with (i := 0) as [es Hes].
    + intros dim0 idx0.
      destruct (stateEntries_total (d0 :: d1 :: dims) 1 d1 dim0 eq_refl) as [es ->].
      eexists. reflexivity.
    + rewrite Hes. eexists. reflexivity.
Qed.

Lemma partitionKeyAt_firstn (dims : list PartitionHealthDimension) (d idx : nat) :
  d < 2 -> partitionKeyAt (firstn 2 dims) d idx = partitionKeyAt dims d idx.
Proof.
  intros Hd. unfold partitionKeyAt. rewrite nth_error_firstn.
  apply Nat.ltb_lt in Hd. rewrite Hd. reflexivity.
Qed.

Lemma stateEntries_firstn (dims : list PartitionHealthDimension) (d : nat)
  (cs : list Z) :
  d < 2 -> stateEntries (firstn 2 dims) d cs = stateEntries dims d cs.
Proof.
  intros Hd. unfold stateEntries, mapiM. apply mapiM_from_ext.
  intros count idx. rewrite (partitionKeyAt_firstn dims d idx Hd). reflexivity.
Qed.

(** Only the first two dimensions are read while the index is built. *)
Lemma buildStateByKey_firstn (dims : list PartitionHealthDimension)
  (counts : MaterializationCounts) :
  buildStateByKey (firstn 2 dims) counts = buildStateByKey dims counts.
Proof.
  destruct counts as [cs|grouped]; unfold buildStateByKey.
  - rewrite stateEntries_firstn by lia. reflexivity.
  - f_equal. unfold mapiM. apply mapiM_from_ext. intros dim0 idx0.
    rewrite partitionKeyAt_firstn by lia.
    rewrite stateEntries_firstn by lia. reflexivity.
Qed.

(** C2 (as the code has it): construction checks neither the length of the
    counts nor the number of dimensions.  It returns an index or throws the
    engine's [TypeError], never [InvalidArgument]; it returns an index
    whenever the payload names at least one dimension (single counts) or two
    (grouped counts), whatever the outer count length, and with more than two
    dimensions the index keeps them all in [dimensions] and builds
    [stateByKey] from the first two. *)
Theorem load_does_not_validate
  (loadKey : AssetKey) (dims : list PartitionHealthDimension)
  (counts : MaterializationCounts) :
  ((exists h, loadPartitionHealthData loadKey (AssetNode dims (Some counts)) = Ret h) \/
   loadPartitionHealthData loadKey (AssetNode dims (Some counts)) = Throw TypeError) /\
  (match counts with
   | MaterializationCountSingleDimension _ => 1 <= List.length dims
   | MaterializationCountGroupedByDimension _ => 2 <= List.length dims
   end ->
   exists h,
     loadPartitionHealthData loadKey (AssetNode dims (Some counts)) = Ret h /\
     assetKey h = loadKey /\
     dimensions h = dims /\
     buildStateByKey (firstn 2 dims) counts = Ret (stateByKey h)).
Proof.
  unfold loadPartitionHealthData. split.
  - destruct (buildStateByKey_outcomes dims counts) as [[sbk ->]| ->].
    + left. eexists. reflexivity.
    + right. reflexivity.
  - intros Hdims. rewrite buildStateByKey_firstn.
    destruct (buildStateByKey_total dims counts Hdims) as [sbk ->].
    eexists. repeat split; reflexivity.
Qed.

Lemma load_does_not_validate_witness :
  1 <= List.length [abc] /\
  exists h,
    loadPartitionHealthData keyA
      (AssetNode [abc] (Some (MaterializationCountSingleDimension [0; 2; 0; 7; 1]%Z)))
    = Ret h /\ dimensions h = [abc].
Proof.
  assert (Hdims : 1 <= List.length [abc]) by (simpl; lia).
  split; [exact Hdims|].
  destruct (proj2 (load_does_not_validate keyA [abc]
                     (MaterializationCountSingleDimension [0; 2; 0; 7; 1]%Z)) Hdims)
    as [h (Hload & _ & Hd & _)].
  exists h. split; [exact Hload|exact Hd].
Defined.

(** C2 (as stated) fails: one count for the three keys a, b, c, and three
    dimensions, each yield an index. *)
Lemma load_accepts_mismatched_and_third_dimension :
  List.length [5%Z] <> List.length (partitionKeys abc) /\
  loadPartitionHealthData keyA
    (AssetNode [abc] (Some (MaterializationCountSingleDimension [5]%Z)))
  = Ret {| assetKey := keyA; dimensions := [abc];
           stateByKey := [("a", VState SUCCESS)] |} /\
  2 < List.length [letters; marks; abc] /\
  loadPartitionHealthData keyA
    (AssetNode [letters; marks; abc]
       (Some (MaterializationCountGroupedByDimension [[1; 0]; [0; 0]]%Z)))
  = Ret {| assetKey := keyA; dimensions := [letters; marks; abc];
           stateByKey := stateByKey gridHealth |}.
Proof.
  split; [simpl; lia|split; [reflexivity|split; [simpl; lia|reflexivity]]].
Qed.

(** *** Aggregation over dimension 0 *)

Lemma mergedStates_perm (l l' : list PartitionState) :
  Permutation l l' -> mergedStates l = mergedStates l'.
Proof.
  intros Hperm. unfold mergedStates.
  rewrite (forallb_perm (PartitionState_eqb MISSING) l l' Hperm).
  rewrite (forallb_perm (PartitionState_eqb SUCCESS) l l' Hperm).
  destruct l as [|a l], l' as [|b l']; try reflexivity.
  - apply Permutation_nil in Hperm. discriminate.
  - apply Permutation_sym, Permutation_nil in Hperm. discriminate.
Qed.

Lemma asStates_map_VState {A : Type} (g : A -> PartitionState) (l : list A) :
  asStates (map (fun a => VState (g a)) l) = Some (map g l).
Proof.
  induction l as [|a l IH]; simpl.
  - reflexivity.
  - rewrite IH. reflexivity.
Qed.

Lemma row_state_at (keys1 : list string) (row : list Z) (j : nat) (k : string) :
  NoDup keys1 -> nth_error keys1 j = Some k ->
  List.length row = List.length keys1 ->
  getOwn k (entriesOf keys1 row) = Some (VState (stateOfCount (nth j row 0%Z))).
Proof.
  intros Hnd Hk Hlen. unfold entriesOf.
  apply (getOwn_combine_nth _ _ j); [exact Hnd|exact Hk|].
  apply map_nth_error with (f := fun count => VState (stateOfCount count)).
  apply nth_error_nth'. rewrite Hlen. apply nth_error_Some. rewrite Hk. discriminate.
Qed.

Lemma stateUnder_rows (keys1 : list string) (j : nat) (k : string)
  (p : string -> bool) :
  NoDup keys1 -> nth_error keys1 j = Some k ->
  forall (grouped : list (list Z)) (keys0 : list string),
    Forall (fun row => List.length row = List.length keys1) grouped ->
    map (stateUnder k)
        (filter (fun e => p (fst e)) (combine keys0 (map (rowObject keys1) grouped)))
    = map (fun e => stateOfCount (nth j (snd e) 0%Z))
          (filter (fun e => p (fst e)) (combine keys0 grouped)).
Proof.
  intros Hnd Hk. induction grouped as [|row grouped IH]; intros keys0 Hrows.
  - destruct keys0; reflexivity.
  - destruct keys0 as [|k0 keys0]; [reflexivity|].
    inversion Hrows as [|? ? Hrow Hrows']; subst. simpl.
    destruct (p k0); simpl; rewrite (IH keys0 Hrows'); [|reflexivity].
    f_equal. unfold stateUnder. simpl.
    rewrite (row_state_at keys1 row j k Hnd Hk Hrow). reflexivity.
Qed.

(** C4: on a well-formed 2-dimension index, for a key [k] of dimension 1 and
    an optional list of dimension-0 keys, [stateForSingleDimension(1, k, P)]
    is the state merger applied to the states at [k] of exactly those
    dimension-0 entries whose key is in [P], and of all of them when [P] is
    omitted.  For a, b x x, y with counts [[1,0],[0,0]] the state of x is
    [SUCCESS_MISSING], and [MISSING] within the parent b. *)
Theorem stateForSingleDimension_1_aggregates (loadKey : AssetKey) :
  (forall d0 d1 grouped h j k parents,
      wellFormed [d0; d1] (MaterializationCountGroupedByDimension grouped) ->
      loadPartitionHealthData loadKey
        (AssetNode [d0; d1] (Some (MaterializationCountGroupedByDimension grouped)))
        = Ret h ->
      nth_error (partitionKeys d1) j = Some k ->
      stateForSingleDimension h 1 k parents
      = (s <- aggregateAt (partitionKeys d0) grouped j parents ;; Ret (VState s))) /\
  (exists h, loadPartitionHealthData loadKey gridPayload = Ret h /\
             stateForSingleDimension h 1 "x" None = Ret (VState SUCCESS_MISSING) /\
             stateForSingleDimension h 1 "x" (Some ["b"]) = Ret (VState MISSING)).
Proof.
  split.
  - intros d0 d1 grouped h j k parents Hwf Hload Hk.
    rewrite (load_grouped_wellFormed loadKey d0 d1 grouped Hwf) in Hload.
    injection Hload as <-. destruct Hwf as (Hnd0 & Hnd1 & Hg & Hrows).
    unfold stateForSingleDimension. cbn [Z.eqb stateByKey Pos.eqb].
    set (sbk := combine (partitionKeys d0) (map (rowObject (partitionKeys d1)) grouped)).
    set (within := fun e : string * JsVal => withinParents parents (fst e)).
    assert (Hperm : Permutation (filter within (Object_entries sbk)) (filter within sbk)).
    { apply filter_perm. apply Object_entries_perm. }
    rewrite (mapM_ret_map _ (fun e => VState (stateUnder k e))).
    + cbn [bind]. unfold mergedStatesOf. rewrite asStates_map_VState.
      rewrite (mergedStates_perm _ _ (Permutation_map (stateUnder k) Hperm)).
      unfold aggregateAt, within, sbk.
      rewrite (stateUnder_rows (partitionKeys d1) j k (withinParents parents)
                 Hnd1 Hk grouped (partitionKeys d0) Hrows).
      reflexivity.
    + intros [k0 v] He.
      apply (Permutation_in _ Hperm) in He. apply filter_In in He.
      destruct He as [He _]. unfold sbk in He.
      apply in_combine_r in He. apply in_map_iff in He.
      destruct He as (row & <- & Hrow).
      rewrite Forall_forall in Hrows. specialize (Hrows row Hrow).
      unfold stateUnder, rowObject. cbn [snd].
      rewrite (row_state_at (partitionKeys d1) row j k Hnd1 Hk Hrows).
      apply getProp_own. exact (row_state_at (partitionKeys d1) row j k Hnd1 Hk Hrows).
  - eexists. split; [reflexivity|]. split; reflexivity.
Qed.

Lemma stateForSingleDimension_1_aggregates_witness :
  wellFormed [letters; marks]
             (MaterializationCountGroupedByDimension [[1; 0]; [0; 0]]%Z) /\
  stateForSingleDimension gridHealth 1 "y" (Some ["a"])
  = (s <- aggregateAt ["a"; "b"] [[1; 0]; [0; 0]]%Z 1 (Some ["a"]) ;; Ret (VState s)).
Proof.
  split; [exact grid_wellFormed|].
  exact (proj1 (stateForSingleDimension_1_aggregates keyA)
           letters marks [[1; 0]; [0; 0]]%Z gridHealth 1 "y" (Some ["a"])
           grid_wellFormed gridHealth_loaded eq_refl).
Defined.

(** C1 (as the code has it): the index has no lookup failure of its own.
    On a well-formed index, for a key sequence as long as the dimension list
    that contains a key absent from its dimension, and whose keys are not
    names inherited from [Object.prototype], [stateForKey] returns no
    [PartitionState]: it returns [undefined] when the index has one
    dimension, or two and the dimension-0 key is present; it throws the
    engine's [TypeError] when the dimension-0 key of a 2-dimension index is
    absent. *)
Theorem stateForKey_absent_key
  (loadKey : AssetKey) (dims : list PartitionHealthDimension)
  (counts : MaterializationCounts) (h : PartitionHealthData) (keys : list string) :
  wellFormed dims counts ->
  loadPartitionHealthData loadKey (AssetNode dims (Some counts)) = Ret h ->
  List.length keys = List.length dims ->
  (exists i k d, nth_error keys i = Some k /\ nth_error dims i = Some d /\
                 ~ In k (partitionKeys d)) ->
  (forall k, In k keys -> inheritedName k = false) ->
  (forall s, stateForKey h keys <> Ret (VState s)) /\
  (List.length dims = 1 -> stateForKey h keys = Ret VUndefined) /\
  (forall d0 k0, List.length dims = 2 ->
     nth_error dims 0 = Some d0 -> nth_error keys 0 = Some k0 ->
     (In k0 (partitionKeys d0) -> stateForKey h keys = Ret VUndefined) /\
     (~ In k0 (partitionKeys d0) -> stateForKey h keys = Throw TypeError)).
Proof.
  intros Hwf Hload Hlen (i & k & d & Hk & Hd & Habsent) Hplain.
  destruct dims as [|d0 [|d1 [|d2 dims]]]; try (destruct counts; contradiction).
  (* no dimension, or three and more: not well-formed *)
  - (* one dimension *)
    destruct counts as [cs|grouped]; [|contradiction].
    rewrite (load_single_wellFormed loadKey d0 cs Hwf) in Hload.
    injection Hload as <-. destruct Hwf as [Hnd Hcs].
    destruct keys as [|k0 [|k1 keys]]; try discriminate.
    destruct i as [|i]; [|destruct i; discriminate].
    simpl in Hk, Hd. injection Hk as ->. injection Hd as ->.
    assert (Hres : stateForKey
                     {| assetKey := loadKey; dimensions := [d];
                        stateByKey := entriesOf (partitionKeys d) cs |} [k]
                   = Ret VUndefined).
    { rewrite stateForKey_one. cbn [stateByKey]. apply getProp_absent.
      - rewrite entriesOf_keys by exact Hcs. exact Habsent.
      - apply Hplain. left. reflexivity. }
    split; [|split].
    + intros s. rewrite Hres. discriminate.
    + intros _. exact Hres.
    + intros d0 k0 Hlen2. discriminate.
  - (* two dimensions *)
    destruct counts as [cs|grouped]; [contradiction|].
    rewrite (load_grouped_wellFormed loadKey d0 d1 grouped Hwf) in Hload.
    injection Hload as <-. destruct Hwf as (Hnd0 & Hnd1 & Hg & Hrows).
    destruct keys as [|k0 [|k1 [|k2 keys]]]; try discriminate.
    set (h := {| assetKey := loadKey; dimensions := [d0; d1];
                 stateByKey := combine (partitionKeys d0)
                                 (map (rowObject (partitionKeys d1)) grouped) |}).
    assert (Hkeys0 : map fst (combine (partitionKeys d0)
                                (map (rowObject (partitionKeys d1)) grouped))
                     = partitionKeys d0).
    { apply combine_map_fst_aligned. rewrite length_map. symmetry. exact Hg. }
    assert (Hout : ~ In k0 (partitionKeys d0) -> stateForKey h [k0; k1] = Throw TypeError).
    { intros Hk0. rewrite stateForKey_two. unfold h. cbn [stateByKey].
      rewrite getProp_absent.
      - reflexivity.
      - rewrite Hkeys0. exact Hk0.
      - apply Hplain. left. reflexivity. }
    assert (Hin : In k0 (partitionKeys d0) -> stateForKey h [k0; k1] = Ret VUndefined).
    { intros Hk0. destruct (In_nth_error _ _ Hk0) as [i0 Hi0].
      assert (Hi0lt : i0 < List.length grouped).
      { rewrite Hg. apply nth_error_Some. rewrite Hi0. discriminate. }
      destruct (nth_error grouped i0) as [row|] eqn:Hrow;
        [|apply nth_error_None in Hrow; lia].
      rewrite stateForKey_two. unfold h. cbn [stateByKey].
      rewrite (getProp_own _ k0 (rowObject (partitionKeys d1) row)).
      - cbn [bind]. unfold rowObject. apply getProp_absent.
        + rewrite Forall_forall in Hrows.
          rewrite entriesOf_keys by (apply Hrows; exact (nth_error_In _ _ Hrow)).
          destruct i as [|[|i]]; simpl in Hk, Hd.
          * injection Hk as ->. injection Hd as ->. contradiction.
          * injection Hk as ->. injection Hd as ->. exact Habsent.
          * destruct i; discriminate.
        + apply Hplain. right. left. reflexivity.
      - apply (getOwn_combine_nth _ _ i0); [exact Hnd0|exact Hi0|].
        apply map_nth_error. exact Hrow. }
    split; [|split].
    + intros s. destruct (in_dec string_dec k0 (partitionKeys d0)) as [Hk0|Hk0].
      * rewrite (Hin Hk0). discriminate.
      * rewrite (Hout Hk0). discriminate.
    + intros Hone. discriminate.
    + intros d0' k0' _ Hd0 Hk0. simpl in Hd0, Hk0.
      injection Hd0 as <-. injection Hk0 as <-. split; assumption.
Qed.

Lemma stateForKey_absent_key_witness :
  wellFormed [letters; marks]
             (MaterializationCountGroupedByDimension [[1; 0]; [0; 0]]%Z) /\
  loadPartitionHealthData keyA gridPayload = Ret gridHealth /\
  ~ In "q" (partitionKeys letters) /\
  stateForKey gridHealth ["q"; "x"] = Throw TypeError.
Proof.
  assert (Hq : ~ In "q" (partitionKeys letters)).
  { simpl. intuition discriminate. }
  split; [exact grid_wellFormed|split; [exact gridHealth_loaded|split; [exact Hq|]]].
  assert (Hplain : forall k, In k ["q"; "x"] -> inheritedName k = false).
  { intros k [<-|[<-|[]]]; reflexivity. }
  exact (proj2 (proj2 (proj2 (stateForKey_absent_key keyA [letters; marks]
                  (MaterializationCountGroupedByDimension [[1; 0]; [0; 0]]%Z)
                  gridHealth ["q"; "x"] grid_wellFormed gridHealth_loaded eq_refl
                  (ex_intro _ 0 (ex_intro _ "q" (ex_intro _ letters
                     (conj eq_refl (conj eq_refl Hq)))))
                  Hplain))
                letters "q" eq_refl eq_refl eq_refl) Hq).
Defined.

(** C1 (as stated) fails: "zz" is not a key of the 1-dimension index a, b,
    c, and the lookup is no failure at all: it returns [undefined]. *)
Lemma stateForKey_unknown_key_returns_undefined :
  loadPartitionHealthData keyA abcPayload = Ret abcHealth /\
  List.length ["zz"] = List.length (dimensions abcHealth) /\
  ~ In "zz" (partitionKeys abc) /\
  stateForKey abcHealth ["zz"] = Ret VUndefined.
Proof.
  split; [reflexivity|split; [reflexivity|split; [|reflexivity]]].
  simpl. intuition discriminate.
Qed.

End HealthFacts.

(* ===================================================================== *)
(** ** Facts about the component *)
(* ===================================================================== *)

Module PartitionsFacts.
Import Js Health Partitions JsFacts.
Local Open Scope js_scope.

Lemma focusedDimensionKeys_truthy (params : AssetViewParams)
  (ranges : list PartitionHealthDimensionRange) (s : string) :
  In s (focusedDimensionKeys params ranges) -> truthy s = true.
Proof.
  unfold focusedDimensionKeys.
  destruct (partition params) as [p|]; [|intros []].
  destruct (truthy p) eqn:Hp; [|intros []].
  destruct (Nat.ltb 1 (List.length ranges)).
  - intros Hin. apply filter_In in Hin. exact (proj2 Hin).
  - intros [<-|[]]. exact Hp.
Qed.

Lemma findIndex_first {A : Type} (p : A -> bool) (l : list A) (i : nat) (a : A) :
  nth_error l i = Some a -> p a = true ->
  (forall j b, j < i -> nth_error l j = Some b -> p b = false) ->
  findIndex p l = Some i.
Proof.
  revert i. induction l as [|x l IH]; intros i Hnth Hp Hbefore.
  - destruct i; discriminate.
  - destruct i as [|i]; simpl in *.
    + injection Hnth as ->. rewrite Hp. reflexivity.
    + rewrite (Hbefore 0 x (Nat.lt_0_succ i) eq_refl).
      rewrite (IH i Hnth Hp); [reflexivity|].
      intros j b Hj Hb. apply (Hbefore (S j) b); [lia|exact Hb].
Qed.

Section ExplorerFacts.

Variable isTimeseriesPartition : option string -> bool.

Lemma timeRange_first (ranges : list PartitionHealthDimensionRange) (i : nat)
  (tr : PartitionHealthDimensionRange) :
  nth_error ranges i = Some tr ->
  isTimeRange isTimeseriesPartition tr = true ->
  (forall j r, j < i -> nth_error ranges j = Some r ->
               isTimeRange isTimeseriesPartition r = false) ->
  timeRange isTimeseriesPartition ranges = Some tr.
Proof.
  intros Hnth Htime Hbefore. unfold timeRange, timeRangeIdx.
  rewrite (findIndex_first _ ranges i tr Hnth Htime Hbefore). exact Hnth.
Qed.

(** C6 (as the code has it): when the first time-ordered range of the
    sequence (the one [timeRange] picks) has an empty selection, the row
    list computed for every range and every column index is empty, whatever
    the index, the focus, the other selections and the state filters. *)
Theorem first_time_range_empty_no_rows
  (assetHealth : PartitionHealthData)
  (ranges : list PartitionHealthDimensionRange) (params : AssetViewParams)
  (stateFilters : list PartitionState) (i : nat)
  (tr : PartitionHealthDimensionRange) :
  nth_error ranges i = Some tr ->
  isTimeRange isTimeseriesPartition tr = true ->
  (forall j r, j < i -> nth_error ranges j = Some r ->
               isTimeRange isTimeseriesPartition r = false) ->
  selected tr = [] ->
  forall range idx,
    dimensionRowsForRange isTimeseriesPartition assetHealth ranges params
                          stateFilters range idx = Ret [].
Proof.
  intros Hnth Htime Hbefore Hsel range idx.
  unfold dimensionRowsForRange, timeRangeIsEmpty.
  rewrite (timeRange_first ranges i tr Hnth Htime Hbefore), Hsel.
  reflexivity.
Qed.

(** C10: at column 0 the test [focusedDimensionKeys.length >= idx] holds for
    every focus vector, so each row state is [stateForPartialKey([key])];
    the rows of column 0 are that computation over the displayed keys and
    are the same for any two values of [params] (hence of the focus). *)
Theorem dimension0_rows_use_partial_key
  (assetHealth : PartitionHealthData)
  (ranges : list PartitionHealthDimensionRange)
  (stateFilters : list PartitionState)
  (range : PartitionHealthDimensionRange) :
  (forall focused key,
      rowState assetHealth ranges focused 0 key
      = stateForPartialKey assetHealth [key]) /\
  (forall params,
      dimensionRowsForRange isTimeseriesPartition assetHealth ranges params
                            stateFilters range 0
      = if timeRangeIsEmpty isTimeseriesPartition ranges then Ret []
        else
          rows <- mapM (fun key =>
                          st <- stateForPartialKey assetHealth [key] ;;
                          Ret {| dimensionKey := key; state := st |})
                       (dimensionKeysOrdered isTimeseriesPartition range) ;;
          Ret (filter (fun row => includesState stateFilters (state row)) rows)) /\
  (forall params params',
      dimensionRowsForRange isTimeseriesPartition assetHealth ranges params
                            stateFilters range 0
      = dimensionRowsForRange isTimeseriesPartition assetHealth ranges params'
                              stateFilters range 0).
Proof.
  split; [|split].
  - intros focused key. reflexivity.
  - intros params. reflexivity.
  - intros params params'. reflexivity.
Qed.

(** C9: with at most one range a non-empty focus string is taken as one
    whole key, so the key selected in the only column of a 1-dimension asset
    comes back unchanged from the string it is written to, whatever
    characters it contains; the string is split on the separator (and empty
    pieces dropped) exactly when there is more than one range. *)
Theorem focus_string_split_only_with_several_dimensions
  (params : AssetViewParams) (ranges : list PartitionHealthDimensionRange)
  (key : string) :
  truthy key = true ->
  (List.length ranges = 1 ->
     setFocusedDimensionKey isTimeseriesPartition params ranges 0 (Some key)
       = Ret {| partition := Some key |} /\
     focusedDimensionKeys {| partition := Some key |} ranges = [key]) /\
  (List.length ranges <= 1 ->
     focusedDimensionKeys {| partition := Some key |} ranges = [key]) /\
  (1 < List.length ranges ->
     focusedDimensionKeys {| partition := Some key |} ranges
     = filter truthy (split "|"%char key)).
Proof.
  intros Hkey.
  assert (Hwhole : List.length ranges <= 1 ->
            focusedDimensionKeys {| partition := Some key |} ranges = [key]).
  { intros Hlen. unfold focusedDimensionKeys. simpl. rewrite Hkey.
    destruct (Nat.ltb_spec 1 (List.length ranges)); [lia|reflexivity]. }
  split; [|split].
  - intros Hlen. split; [|apply Hwhole; lia].
    unfold setFocusedDimensionKey, nextFocusedDimensionKeys. simpl.
    rewrite Hkey. reflexivity.
  - exact Hwhole.
  - intros Hlen. unfold focusedDimensionKeys. simpl. rewrite Hkey.
    destruct (Nat.ltb_spec 1 (List.length ranges)); [reflexivity|lia].
Qed.

End ExplorerFacts.

Import Samples.

Lemma calendarHealth_loaded :
  loadPartitionHealthData keyA calendarPayload = Ret calendarHealth.
Proof. reflexivity. Qed.

Lemma first_time_range_empty_no_rows_witness :
  nth_error [noDay; noWeek] 0 = Some noDay /\
  isTimeRange isDayKey noDay = true /\
  selected noDay = [] /\
  dimensionRowsForRange isDayKey calendarHealth [noDay; noWeek] noFocus
                        allStates noWeek 1 = Ret [].
Proof.
  split; [reflexivity|split; [reflexivity|split; [reflexivity|]]].
  apply (first_time_range_empty_no_rows isDayKey calendarHealth [noDay; noWeek]
           noFocus allStates 0 noDay).
  - reflexivity.
  - reflexivity.
  - intros j r Hj. lia.
  - reflexivity.
Defined.

(** C6 (as stated) fails: [noWeek] is a time-ordered range with an empty
    selection, yet column 0 of the calendar asset keeps its row, because
    [timeRange] is the first time-ordered range, [oneDay], whose selection
    is not empty. *)
Lemma later_time_range_empty_rows_remain :
  loadPartitionHealthData keyA calendarPayload = Ret calendarHealth /\
  In noWeek [oneDay; noWeek] /\
  isTimeRange isDayKey noWeek = true /\
  selected noWeek = [] /\
  dimensionRowsForRange isDayKey calendarHealth [oneDay; noWeek] noFocus
                        allStates oneDay 0
  = Ret [{| dimensionKey := "2022-01-01"; state := VState SUCCESS |}] /\
  dimensionRowsForRange isDayKey calendarHealth [oneDay; noWeek] noFocus
                        allStates oneDay 0
  <> Ret [].
Proof.
  split; [reflexivity|].
  split; [right; left; reflexivity|].
  split; [reflexivity|split; [reflexivity|split; [reflexivity|]]].
  discriminate.
Qed.

Lemma focus_string_split_only_with_several_dimensions_witness :
  truthy "a|b" = true /\
  List.length [allAbc] = 1 /\
  focusedDimensionKeys {| partition := Some "a|b" |} [allAbc] = ["a|b"] /\
  focusedDimensionKeys {| partition := Some "a|b" |} [allLetters; allMarks] = ["a"; "b"].
Proof.
  split; [reflexivity|split; [reflexivity|split]].
  - apply (proj1 (proj2 (focus_string_split_only_with_several_dimensions isDayKey
                           noFocus [allAbc] "a|b" eq_refl))).
    simpl; lia.
  - rewrite (proj2 (proj2 (focus_string_split_only_with_several_dimensions isDayKey
                             noFocus [allLetters; allMarks] "a|b" eq_refl))).
    + reflexivity.
    + simpl; lia.
Defined.

End PartitionsFacts.

(* ===================================================================== *)
(** ** Facts about the hook *)
(* ===================================================================== *)

Module HookFacts.
Import Js Health Hook Samples.

Lemma AssetKey_eqb_eq (a b : AssetKey) : AssetKey_eqb a b = true <-> a = b.
Proof.
  unfold AssetKey_eqb. destruct a as [pa], b as [pb]. simpl.
  destruct (list_eq_dec string_dec pa pb) as [->|Hne]; split; intros H;
    try reflexivity; try discriminate.
  exfalso. apply Hne. injection H as ->. reflexivity.
Qed.

Lemma AssetKey_eqb_refl (a : AssetKey) : AssetKey_eqb a a = true.
Proof. apply AssetKey_eqb_eq. reflexivity. Qed.

Lemma resolved_app (k : AssetKey) (res more : list PartitionHealthData) :
  resolved k res -> resolved k (res ++ more).
Proof.
  intros (r & Hr & Hk). exists r. split; [apply in_or_app; left; exact Hr|exact Hk].
Qed.

Lemma missingKeyJSON_some (ks : list AssetKey) (res : list PartitionHealthData)
  (k : AssetKey) :
  missingKeyJSON ks res = Some k -> In k ks /\ ~ resolved k res.
Proof.
  unfold missingKeyJSON. intros Hfind. apply find_some in Hfind.
  destruct Hfind as [Hin Hneg]. split; [exact Hin|].
  intros (r & Hr & Hk). apply negb_true_iff in Hneg.
  assert (Hex : existsb (fun r => AssetKey_eqb (assetKey r) k) res = true).
  { apply existsb_exists. exists r. split; [exact Hr|].
    apply AssetKey_eqb_eq. exact Hk. }
  rewrite Hex in Hneg. discriminate.
Qed.

Lemma sameDeps_refl (d : nat * option AssetKey) : sameDeps d d = true.
Proof.
  destruct d as [c [k|]]; unfold sameDeps; simpl; rewrite Nat.eqb_refl; simpl.
  - apply AssetKey_eqb_refl.
  - reflexivity.
Qed.

Lemma depsChanged_differs (prev : option (nat * option AssetKey))
  (now : nat * option AssetKey) :
  depsChanged prev now = true -> prev <> Some now.
Proof.
  unfold depsChanged. intros Hch Heq. subst prev.
  rewrite sameDeps_refl in Hch. discriminate.
Qed.

Lemma load_assetKey (loadKey : AssetKey) (data : AssetNodeOrError)
  (h : PartitionHealthData) :
  loadPartitionHealthData loadKey data = Ret h -> assetKey h = loadKey.
Proof.
  unfold loadPartitionHealthData. intros Hload.
  destruct (buildStateByKey _ _); simpl in Hload; try discriminate.
  injection Hload as <-. reflexivity.
Qed.

Lemma NoDup_snoc {A : Type} (l : list A) (a : A) :
  NoDup l -> ~ In a l -> NoDup (l ++ [a]).
Proof.
  intros Hnd Hnot. apply NoDup_app.
  - exact Hnd.
  - constructor; [intros []|constructor].
  - intros b Hb [<-|[]]. exact (Hnot Hb).
Qed.

Lemma filter_key_NoDup (k : AssetKey) (l : list AssetKey) :
  NoDup l -> List.length (filter (AssetKey_eqb k) l) <= 1.
Proof.
  induction 1 as [|a l Hnot _ IH]; simpl.
  - lia.
  - destruct (AssetKey_eqb k a) eqn:Hka; [|exact IH].
    apply AssetKey_eqb_eq in Hka. subst a.
    assert (Hnone : filter (AssetKey_eqb k) l = []).
    { destruct (filter (AssetKey_eqb k) l) as [|b rest] eqn:Hf; [reflexivity|].
      exfalso. apply Hnot.
      assert (Hb : In b (filter (AssetKey_eqb k) l)) by (rewrite Hf; left; reflexivity).
      apply filter_In in Hb. destruct Hb as [Hb Hkb].
      apply AssetKey_eqb_eq in Hkb. subst b. exact Hb. }
    rewrite Hnone. simpl. lia.
Qed.

Lemma filter_key_In (k : AssetKey) (l : list AssetKey) :
  In k l -> 1 <= List.length (filter (AssetKey_eqb k) l).
Proof.
  intros Hin.
  assert (Hk : In k (filter (AssetKey_eqb k) l)).
  { apply filter_In. split; [exact Hin|apply AssetKey_eqb_refl]. }
  destruct (filter (AssetKey_eqb k) l); [destruct Hk|simpl; lia].
Qed.

Section FixedRequest.

Variable client : nat.
Variable assetKeys : list AssetKey.

Lemma consistent_initial : consistent client assetKeys initial.
Proof.
  unfold consistent, initial; simpl. repeat split.
  - constructor.
  - lia.
  - destruct H.
  - destruct H.
  - intros k [].
  - intros c k Hm. discriminate.
Qed.

Lemma consistent_render (st : HookState) :
  consistent client assetKeys st ->
  consistent client assetKeys (render client assetKeys st).
Proof.
  intros (Hnd & Hlen & Hfly & Hsent & Hmemo). unfold render.
  destruct (depsChanged (memoDeps st)
              (client, missingKeyJSON assetKeys (result st))) eqn:Hch;
    [|repeat split; try assumption; apply Hfly; assumption].
  apply depsChanged_differs in Hch.
  assert (Hidle : inFlight st = []).
  { destruct (inFlight st) as [|k rest] eqn:Hin; [reflexivity|]. exfalso.
    destruct (Hfly k (or_introl eq_refl)) as [Hm Hunres].
    destruct (Hmemo client k Hm) as [Hres|Hmiss]; [exact (Hunres Hres)|].
    apply Hch. rewrite Hmiss. exact Hm. }
  assert (Hold : forall k, In k (fetches st) -> resolved k (result st)).
  { intros k Hk. destruct (Hsent k Hk) as [Hres|Hm]; [exact Hres|].
    destruct (Hmemo client k Hm) as [Hres|Hmiss]; [exact Hres|].
    exfalso. apply Hch. rewrite Hmiss. exact Hm. }
  destruct (missingKeyJSON assetKeys (result st)) as [loadKey|] eqn:Hmiss.
  - destruct (missingKeyJSON_some _ _ _ Hmiss) as [_ Hunres].
    unfold consistent; simpl. rewrite Hidle. simpl.
    split; [|split; [|split; [|split]]].
    + apply NoDup_snoc; [exact Hnd|]. intros Hk. exact (Hunres (Hold _ Hk)).
    + lia.
    + intros k [<-|[]]. split; [reflexivity|exact Hunres].
    + intros k Hk. apply in_app_or in Hk. destruct Hk as [Hk|[<-|[]]].
      * left. exact (Hold k Hk).
      * right. reflexivity.
    + intros c k Hm. injection Hm as _ <-. right. exact Hmiss.
  - unfold consistent; simpl. rewrite Hidle. simpl.
    split; [exact Hnd|split; [lia|split; [|split]]].
    + intros k [].
    + intros k Hk. left. exact (Hold k Hk).
    + intros c k Hm. discriminate.
Qed.

Lemma removeNth_single {A : Type} (n : nat) (l : list A) (a : A) :
  List.length l <= 1 -> nth_error l n = Some a -> l = [a] /\ removeNth n l = [].
Proof.
  intros Hlen Hn. destruct l as [|x [|y l]]; simpl in Hlen; try lia.
  - destruct n; discriminate.
  - destruct n as [|n]; simpl in Hn.
    + injection Hn as ->. split; reflexivity.
    + destruct n; discriminate.
Qed.

Lemma removeNth_short {A : Type} (n : nat) (l : list A) :
  List.length l <= 1 -> removeNth n l = l \/ removeNth n l = [].
Proof.
  intros Hlen. destruct l as [|x [|y l]]; simpl in Hlen; try lia.
  - left. unfold removeNth. destruct n; reflexivity.
  - destruct n as [|n]; [right; reflexivity|left].
    unfold removeNth. destruct n; reflexivity.
Qed.

Lemma consistent_step (st : HookState) (ev : Event) :
  isRenderOf client assetKeys ev ->
  consistent client assetKeys st ->
  consistent client assetKeys (step st ev).
Proof.
  intros Hev Hst. destruct ev as [c ks|n data|n]; simpl in *.
  - destruct Hev as [-> ->]. apply consistent_render. exact Hst.
  - destruct (nth_error (inFlight st) n) as [loadKey|] eqn:Hn; [|exact Hst].
    destruct Hst as (Hnd & Hlen & Hfly & Hsent & Hmemo).
    destruct (removeNth_single n (inFlight st) loadKey Hlen Hn) as [Hone Hnone].
    assert (Hload : In loadKey (inFlight st)) by (rewrite Hone; left; reflexivity).
    destruct (Hfly loadKey Hload) as [Hm _].
    destruct (loadPartitionHealthData loadKey data) as [loaded| |] eqn:Hloaded;
      unfold consistent; simpl; rewrite Hnone;
      (split; [exact Hnd|split; [simpl; lia|split; [intros k []|]]]).
    + assert (Hnow : resolved loadKey (result st ++ [loaded])).
      { exists loaded. split; [apply in_or_app; right; left; reflexivity|].
        exact (load_assetKey loadKey data loaded Hloaded). }
      split.
      * intros k Hk. destruct (Hsent k Hk) as [Hres|Hm'].
        -- left. apply resolved_app. exact Hres.
        -- right. exact Hm'.
      * intros c k Hm'. left. rewrite Hm in Hm'. injection Hm' as _ <-. exact Hnow.
    + split; assumption.
    + split; assumption.
  - destruct Hst as (Hnd & Hlen & Hfly & Hsent & Hmemo).
    unfold consistent; simpl.
    destruct (removeNth_short n (inFlight st) Hlen) as [-> | ->].
    + repeat split; try assumption; apply Hfly; assumption.
    + split; [exact Hnd|split; [simpl; lia|split; [intros k []|split; assumption]]].
Qed.

Lemma consistent_run (events : list Event) (st : HookState) :
  Forall (isRenderOf client assetKeys) events -> consistent client assetKeys st ->
  consistent client assetKeys (fold_left step events st).
Proof.
  revert st. induction events as [|ev events IH]; intros st Hall Hst; simpl.
  - exact Hst.
  - inversion Hall as [|? ? Hev Hrest]; subst.
    apply IH; [exact Hrest|]. apply consistent_step; assumption.
Qed.

Lemma step_keeps_fetches (st : HookState) (ev : Event) (k : AssetKey) :
  In k (fetches st) -> In k (fetches (step st ev)).
Proof.
  intros Hk. destruct ev as [c ks|n data|n]; simpl.
  - unfold render.
    destruct (depsChanged _ _); [|exact Hk].
    destruct (missingKeyJSON ks (result st)); simpl; [|exact Hk].
    apply in_or_app. left. exact Hk.
  - destruct (nth_error (inFlight st) n); [|exact Hk].
    destruct (loadPartitionHealthData _ _); exact Hk.
  - exact Hk.
Qed.

Lemma run_keeps_fetches (events : list Event) (st : HookState) (k : AssetKey) :
  In k (fetches st) -> In k (fetches (fold_left step events st)).
Proof.
  revert st. induction events as [|ev events IH]; intros st Hk; simpl.
  - exact Hk.
  - apply IH. apply step_keeps_fetches. exact Hk.
Qed.

Lemma sameDeps_eq (a b : nat * option AssetKey) : sameDeps a b = true -> a = b.
Proof.
  destruct a as [ca [ka|]], b as [cb [kb|]]; unfold sameDeps; simpl; intros H;
    apply andb_true_iff in H; destruct H as [Hc Hk]; try discriminate;
    apply Nat.eqb_eq in Hc; subst cb.
  - apply AssetKey_eqb_eq in Hk. subst kb. reflexivity.
  - reflexivity.
Qed.

Lemma memo_key_was_queried_step (st : HookState) (ev : Event) :
  (forall c k, memoDeps st = Some (c, Some k) -> In k (fetches st)) ->
  forall c k, memoDeps (step st ev) = Some (c, Some k) -> In k (fetches (step st ev)).
Proof.
  intros Hst c k. destruct ev as [c' ks|n data|n]; simpl.
  - unfold render. destruct (depsChanged _ _); [|apply Hst].
    destruct (missingKeyJSON ks (result st)) as [loadKey|]; simpl.
    + intros Hm. injection Hm as _ <-. apply in_or_app. right. left. reflexivity.
    + discriminate.
  - destruct (nth_error (inFlight st) n); [|apply Hst].
    destruct (loadPartitionHealthData _ _); simpl; apply Hst.
  - apply Hst.
Qed.

Lemma memo_key_was_queried (events : list Event) :
  forall st,
    (forall c k, memoDeps st = Some (c, Some k) -> In k (fetches st)) ->
    forall c k, memoDeps (fold_left step events st) = Some (c, Some k) ->
                In k (fetches (fold_left step events st)).
Proof.
  induction events as [|ev events IH]; intros st Hst; simpl.
  - exact Hst.
  - apply IH. apply memo_key_was_queried_step. exact Hst.
Qed.

(** A render queries the first missing key unless the memo already ran for
    it, in which case it was queried before. *)
Lemma render_has_queried_missing (st : HookState) (k : AssetKey) :
  (forall c k', memoDeps st = Some (c, Some k') -> In k' (fetches st)) ->
  missingKeyJSON assetKeys (result st) = Some k ->
  In k (fetches (render client assetKeys st)).
Proof.
  intros Hmemo Hmiss. unfold render. rewrite Hmiss.
  destruct (depsChanged (memoDeps st) (client, Some k)) eqn:Hch; simpl.
  - apply in_or_app. right. left. reflexivity.
  - unfold depsChanged in Hch. destruct (memoDeps st) as [p|] eqn:Hp; [|discriminate].
    apply negb_false_iff in Hch. apply sameDeps_eq in Hch. subst p.
    exact (Hmemo client k eq_refl).
Qed.

(** C8 (as the code has it): while every render passes the same client and
    the same list of asset keys, every reachable state has at most one
    outstanding query per asset key, and at most one query is ever sent per
    asset key.  The key the hook loads is the first key of the list that has
    no index: a render made while that key is unresolved leaves exactly one
    query sent for it, whether this render or an earlier one sent it and
    whatever renders, answers and failures follow; in particular the first
    key of the list, requested once or many times before anything settles,
    is queried exactly once.  A render sends no query for any other key. *)
Theorem one_query_per_key_for_a_fixed_request (events : list Event) :
  Forall (isRenderOf client assetKeys) events ->
  (forall k, outstanding k (run events) <= 1 /\ fetchCount k (run events) <= 1) /\
  (forall k0 ks rest,
      assetKeys = k0 :: ks -> events = Render client assetKeys :: rest ->
      fetchCount k0 (run events) = 1) /\
  (forall before after k,
      events = before ++ Render client assetKeys :: after ->
      missingKeyJSON assetKeys (result (run before)) = Some k ->
      fetchCount k (run events) = 1) /\
  (forall before k,
      events = before ++ [Render client assetKeys] ->
      missingKeyJSON assetKeys (result (run before)) <> Some k ->
      fetchCount k (run events) = fetchCount k (run before)).
Proof.
  intros Hall.
  pose proof (consistent_run events initial Hall consistent_initial)
    as (Hnd & Hlen & _).
  fold (run events) in Hnd, Hlen.
  assert (Hcount : forall k, fetchCount k (run events) <= 1).
  { intros k. unfold fetchCount. apply filter_key_NoDup. exact Hnd. }
  split; [|split; [|split]].
  - intros k. split; [|apply Hcount].
    unfold outstanding.
    destruct (inFlight (run events)) as [|a [|b l]]; simpl in *; try lia.
    destruct (AssetKey_eqb k a); simpl; lia.
  - intros k0 ks rest Hks Hevents.
    assert (Hin : In k0 (fetches (run events))).
    { rewrite Hevents. unfold run. simpl.
      apply run_keeps_fetches. rewrite Hks. unfold render, missingKeyJSON. simpl.
      left. reflexivity. }
    pose proof (Hcount k0). pose proof (filter_key_In k0 _ Hin) as Hge.
    unfold fetchCount in *. lia.
  - intros before after k Hevents Hmiss.
    assert (Hin : In k (fetches (run events))).
    { rewrite Hevents. unfold run. rewrite fold_left_app. simpl.
      apply run_keeps_fetches. apply render_has_queried_missing; [|exact Hmiss].
      apply (memo_key_was_queried before initial). intros c k' Hm. discriminate. }
    pose proof (Hcount k). pose proof (filter_key_In k _ Hin) as Hge.
    unfold fetchCount in *. lia.
  - intros before k Hevents Hother. rewrite Hevents. unfold run.
    rewrite fold_left_app. simpl. fold (run before). unfold render.
    destruct (depsChanged _ _); [|reflexivity].
    destruct (missingKeyJSON assetKeys (result (run before))) as [loadKey|];
      [|reflexivity].
    unfold fetchCount. simpl. rewrite filter_app, length_app. simpl.
    destruct (AssetKey_eqb k loadKey) eqn:Hk; [|simpl; lia].
    apply AssetKey_eqb_eq in Hk. subst loadKey. exfalso. apply Hother. reflexivity.
Qed.

End FixedRequest.

Lemma one_query_per_key_for_a_fixed_request_witness :
  Forall (isRenderOf 0 [keyA; keyB])
         ([Render 0 [keyA; keyB]; Render 0 [keyA; keyB]; QueryAnswered 0 abcPayload]
          ++ Render 0 [keyA; keyB] :: [Render 0 [keyA; keyB]; Render 0 [keyA; keyB]]) /\
  missingKeyJSON [keyA; keyB]
    (result (run [Render 0 [keyA; keyB]; Render 0 [keyA; keyB];
                  QueryAnswered 0 abcPayload])) = Some keyB /\
  fetchCount keyA
    (run ([Render 0 [keyA; keyB]; Render 0 [keyA; keyB]; QueryAnswered 0 abcPayload]
          ++ Render 0 [keyA; keyB] :: [Render 0 [keyA; keyB]; Render 0 [keyA; keyB]]))
  = 1 /\
  fetchCount keyB
    (run ([Render 0 [keyA; keyB]; Render 0 [keyA; keyB]; QueryAnswered 0 abcPayload]
          ++ Render 0 [keyA; keyB] :: [Render 0 [keyA; keyB]; Render 0 [keyA; keyB]]))
  = 1.
Proof.
  assert (Hall : Forall (isRenderOf 0 [keyA; keyB])
                   ([Render 0 [keyA; keyB]; Render 0 [keyA; keyB];
                     QueryAnswered 0 abcPayload]
                    ++ Render 0 [keyA; keyB]
                       :: [Render 0 [keyA; keyB]; Render 0 [keyA; keyB]])).
  { repeat constructor. }
  split; [exact Hall|split; [reflexivity|]].
  pose proof (one_query_per_key_for_a_fixed_request 0 [keyA; keyB] _ Hall)
    as (_ & Hhead & Hmissing & _).
  split.
  - exact (Hhead keyA [keyB] _ eq_refl eq_refl).
  - exact (Hmissing [Render 0 [keyA; keyB]; Render 0 [keyA; keyB];
                     QueryAnswered 0 abcPayload]
                    [Render 0 [keyA; keyB]; Render 0 [keyA; keyB]] keyB
                    eq_refl eq_refl).
Defined.

(** C8 (as stated) fails: the query for [keyA] is still outstanding when the
    list of requested keys becomes [keyB; keyA]; once [keyB] is resolved the
    memo's dependency changes back to [keyA] and a second query for [keyA]
    is sent. *)
Lemma second_query_while_first_outstanding :
  inFlight (run [Render 0 [keyA]]) = [keyA] /\
  inFlight (run [Render 0 [keyA]; Render 0 [keyB; keyA]]) = [keyA; keyB] /\
  outstanding keyA
    (run [Render 0 [keyA]; Render 0 [keyB; keyA];
          QueryAnswered 1 abcPayload; Render 0 [keyB; keyA]]) = 2 /\
  fetchCount keyA
    (run [Render 0 [keyA]; Render 0 [keyB; keyA];
          QueryAnswered 1 abcPayload; Render 0 [keyB; keyA]]) = 2.
Proof.
  split; [reflexivity|split; [reflexivity|split; reflexivity]].
Qed.

End HookFacts.

(* ===================================================================== *)
(** ** Further facts about the health index *)
(* ===================================================================== *)

Module HealthMore.
Import Js Health JsFacts HealthFacts Samples.
Local Open Scope js_scope.

(** *** Reads after [Object.fromEntries] *)

Lemma getOwn_setProp {V : Type} (k k' : string) (v : V) (o : list (string * V)) :
  getOwn k (setProp k' v o) = if String.eqb k' k then Some v else getOwn k o.
Proof.
  induction o as [|[k'' v''] o IH]; simpl.
  - reflexivity.
  - destruct (String.eqb_spec k'' k') as [->|Hne]; simpl.
    + destruct (String.eqb k' k); reflexivity.
    + rewrite IH. destruct (String.eqb_spec k'' k) as [->|Hne'].
      * destruct (String.eqb_spec k' k) as [->|_]; [contradiction|reflexivity].
      * reflexivity.
Qed.

Lemma getOwn_app {V : Type} (k : string) (a b : list (string * V)) :
  getOwn k (a ++ b) = match getOwn k a with Some v => Some v | None => getOwn k b end.
Proof.
  induction a as [|[k' v'] a IH]; simpl.
  - reflexivity.
  - destruct (String.eqb k' k); [reflexivity|exact IH].
Qed.

Lemma getOwn_fold_setProp {V : Type} (k : string) (entries acc : list (string * V)) :
  getOwn k (fold_left (fun o e => setProp (fst e) (snd e) o) entries acc)
  = match getOwn k (rev entries) with
    | Some v => Some v
    | None => getOwn k acc
    end.
Proof.
  revert acc. induction entries as [|[k' v'] entries IH]; intros acc; simpl.
  - reflexivity.
  - rewrite IH, getOwn_app, getOwn_setProp. simpl.
    destruct (getOwn k (rev entries)); [reflexivity|].
    destruct (String.eqb k' k); reflexivity.
Qed.

(** A read finds the value of the last entry given for the key. *)
Lemma getOwn_fromEntries_last {V : Type} (k : string) (v : V)
  (before after : list (string * V)) :
  ~ In k (map fst after) ->
  getOwn k (Object_fromEntries (before ++ (k, v) :: after)) = Some v.
Proof.
  intros Hlast. unfold Object_fromEntries. rewrite getOwn_fold_setProp.
  rewrite rev_app_distr. simpl. rewrite <- app_assoc, getOwn_app.
  rewrite getOwn_absent.
  - simpl. rewrite String.eqb_refl. reflexivity.
  - rewrite map_rev. intros Hin. apply in_rev in Hin. exact (Hlast Hin).
Qed.

Lemma combine_app_aligned {A B : Type} (l1 l2 : list A) (m1 m2 : list B) :
  List.length l1 = List.length m1 ->
  combine (l1 ++ l2) (m1 ++ m2) = combine l1 m1 ++ combine l2 m2.
Proof.
  revert m1. induction l1 as [|a l1 IH]; intros [|b m1] Hlen; simpl in *;
    try discriminate; [reflexivity|].
  f_equal. apply IH. lia.
Qed.

(** Counts keyed by position against the leading keys of a longer list. *)
Lemma mapiM_from_keyed {A : Type} (mk : A -> JsVal)
  (f : A -> nat -> Outcome (string * JsVal)) :
  forall (l : list A) (keys : list string) (i : nat),
    List.length l = List.length keys ->
    (forall a j k, nth_error keys j = Some k -> f a (i + j) = Ret (k, mk a)) ->
    mapiM_from f i l = Ret (combine keys (map mk l)).
Proof.
  induction l as [|a l IH]; intros keys i Hlen Hf.
  - destruct keys; [reflexivity|discriminate].
  - destruct keys as [|k keys]; [discriminate|]. simpl.
    pose proof (Hf a 0 k eq_refl) as Hhead. rewrite Nat.add_0_r in Hhead.
    rewrite Hhead. simpl. rewrite (IH keys (S i)).
    + reflexivity.
    + simpl in Hlen. lia.
    + intros b j k' Hk'. replace (S i + j) with (i + S j) by lia.
      apply Hf. exact Hk'.
Qed.

Lemma stateEntries_leading (d0 : PartitionHealthDimension)
  (rest : list PartitionHealthDimension) (leading trailing : list string)
  (cs : list Z) :
  partitionKeys d0 = leading ++ trailing ->
  List.length cs = List.length leading ->
  stateEntries (d0 :: rest) 0 cs = Ret (entriesOf leading cs).
Proof.
  intros Hkeys Hlen. unfold stateEntries, mapiM, entriesOf.
  apply (mapiM_from_keyed (fun c => VState (stateOfCount c))); [exact Hlen|].
  intros count j k Hk. unfold partitionKeyAt. simpl.
  rewrite Hkeys, nth_error_app1 by (apply nth_error_Some; rewrite Hk; discriminate).
  rewrite Hk. reflexivity.
Qed.

(** X1: when a key occurs several times among the keys of a 1-dimension
    payload, the state stored for it is the one of the count aligned with its
    last occurrence. *)
Theorem duplicate_key_keeps_last_count
  (loadKey : AssetKey) (d0 : PartitionHealthDimension)
  (keysBefore keysAfter : list string) (k : string)
  (csBefore csAfter : list Z) (c : Z) (h : PartitionHealthData) :
  partitionKeys d0 = keysBefore ++ k :: keysAfter ->
  List.length csBefore = List.length keysBefore ->
  List.length csAfter = List.length keysAfter ->
  ~ In k keysAfter ->
  loadPartitionHealthData loadKey
    (AssetNode [d0] (Some (MaterializationCountSingleDimension
                             (csBefore ++ c :: csAfter)))) = Ret h ->
  stateForKey h [k] = Ret (VState (stateOfCount c)).
Proof.
  intros Hkeys Hbefore Hafter Hlast Hload.
  unfold loadPartitionHealthData, buildStateByKey in Hload.
  rewrite (stateEntries_leading d0 [] (partitionKeys d0) [] (csBefore ++ c :: csAfter))
    in Hload.
  - simpl in Hload. injection Hload as <-.
    rewrite stateForKey_one. cbn [stateByKey]. apply getProp_own.
    unfold entriesOf. rewrite Hkeys, map_app. simpl.
    rewrite combine_app_aligned by (rewrite length_map; symmetry; exact Hbefore).
    simpl. apply getOwn_fromEntries_last.
    rewrite combine_map_fst_aligned; [exact Hlast|].
    rewrite length_map. symmetry. exact Hafter.
  - rewrite app_nil_r. reflexivity.
  - rewrite Hkeys, !length_app. simpl. lia.
Qed.

Lemma duplicate_key_keeps_last_count_witness :
  ~ In "a" ["b"] /\
  exists h,
    loadPartitionHealthData keyA
      (AssetNode [{| name := "d"; partitionKeys := ["a"; "a"; "b"] |}]
         (Some (MaterializationCountSingleDimension [3; 0; 1]%Z))) = Ret h /\
    stateForKey h ["a"] = Ret (VState MISSING).
Proof.
  assert (Hlast : ~ In "a" ["b"]) by (simpl; intuition discriminate).
  split; [exact Hlast|]. eexists. split; [reflexivity|].
  exact (duplicate_key_keeps_last_count keyA
           {| name := "d"; partitionKeys := ["a"; "a"; "b"] |}
           ["a"] ["b"] "a" [3%Z] [1%Z] 0%Z _ eq_refl eq_refl eq_refl Hlast eq_refl).
Defined.

(** X2: when a 1-dimension payload carries fewer counts than keys, the keys
    aligned with a count hold its state and every further key has no entry:
    its lookup returns [undefined]. *)
Theorem keys_beyond_the_counts_are_undefined
  (loadKey : AssetKey) (d0 : PartitionHealthDimension)
  (counted uncounted : list string) (cs : list Z) :
  partitionKeys d0 = counted ++ uncounted ->
  NoDup (partitionKeys d0) ->
  List.length cs = List.length counted ->
  exists h,
    loadPartitionHealthData loadKey
      (AssetNode [d0] (Some (MaterializationCountSingleDimension cs))) = Ret h /\
    (forall i k c, nth_error counted i = Some k -> nth_error cs i = Some c ->
                   stateForKey h [k] = Ret (VState (stateOfCount c))) /\
    (forall k, In k uncounted -> inheritedName k = false ->
               stateForKey h [k] = Ret VUndefined).
Proof.
  intros Hkeys Hnd Hlen.
  assert (Hndc : NoDup counted).
  { rewrite Hkeys in Hnd. exact (NoDup_app_remove_r _ _ Hnd). }
  exists {| assetKey := loadKey; dimensions := [d0];
            stateByKey := entriesOf counted cs |}.
  split; [|split].
  - unfold loadPartitionHealthData, buildStateByKey.
    rewrite (stateEntries_leading d0 [] counted uncounted cs Hkeys Hlen). simpl.
    rewrite Object_fromEntries_distinct; [reflexivity|].
    rewrite entriesOf_keys by exact Hlen. exact Hndc.
  - intros i k c Hk Hc. rewrite stateForKey_one. cbn [stateByKey].
    apply getProp_own. unfold entriesOf.
    apply (getOwn_combine_nth _ _ i); [exact Hndc|exact Hk|].
    apply map_nth_error with (f := fun count => VState (stateOfCount count)).
    exact Hc.
  - intros k Hk Hplain. rewrite stateForKey_one. cbn [stateByKey].
    apply getProp_absent; [|exact Hplain].
    rewrite entriesOf_keys by exact Hlen. intros Hin.
    rewrite Hkeys in Hnd. clear - Hnd Hk Hin.
    induction counted as [|x counted IH]; [destruct Hin|].
    simpl in Hnd. inversion Hnd as [|? ? Hx Hnd']; subst.
    destruct Hin as [->|Hin].
    + apply Hx. apply in_or_app. right. exact Hk.
    + exact (IH Hnd' Hin).
Qed.

Lemma keys_beyond_the_counts_are_undefined_witness :
  partitionKeys abc = ["a"] ++ ["b"; "c"] /\
  exists h,
    loadPartitionHealthData keyA
      (AssetNode [abc] (Some (MaterializationCountSingleDimension [4]%Z))) = Ret h /\
    stateForKey h ["a"] = Ret (VState SUCCESS) /\
    stateForKey h ["c"] = Ret VUndefined.
Proof.
  split; [reflexivity|].
  destruct (keys_beyond_the_counts_are_undefined keyA abc ["a"] ["b"; "c"] [4%Z]
              eq_refl (proj1 abc_wellFormed) eq_refl) as [h (Hload & Hin & Hout)].
  exists h. split; [exact Hload|split].
  - exact (Hin 0 "a" 4%Z eq_refl eq_refl).
  - apply Hout; [right; left; reflexivity|reflexivity].
Defined.

(** *** When construction fails *)

Lemma mapiM_from_throws {A B : Type} (f : A -> nat -> Outcome B) (l : list A) :
  (forall a idx, (exists b, f a idx = Ret b) \/ f a idx = Throw TypeError) ->
  (exists a, In a l /\ forall idx, f a idx = Throw TypeError) ->
  forall i, mapiM_from f i l = Throw TypeError.
Proof.
  intros Hf. induction l as [|a l IH]; intros (bad & Hin & Hbad) i.
  - destruct Hin.
  - simpl. destruct (Hf a i) as [[b Hb]|Hthrow]; [|rewrite Hthrow; reflexivity].
    rewrite Hb. simpl. destruct Hin as [->|Hin].
    + rewrite Hbad in Hb. discriminate.
    + rewrite IH; [reflexivity|]. exists bad. split; [exact Hin|exact Hbad].
Qed.

Lemma mapiM_from_returns {A B : Type} (f : A -> nat -> Outcome B) (l : list A) :
  (forall a idx, In a l -> exists b, f a idx = Ret b) ->
  forall i, exists bs, mapiM_from f i l = Ret bs.
Proof.
  induction l as [|a l IH]; intros Hf i; simpl.
  - eexists. reflexivity.
  - destruct (Hf a i (or_introl eq_refl)) as [b ->].
    destruct (IH (fun x idx Hx => Hf x idx (or_intror Hx)) (S i)) as [bs ->].
    simpl. eexists. reflexivity.
Qed.

Lemma stateEntries_without_dimension (dims : list PartitionHealthDimension)
  (d : nat) (cs : list Z) :
  nth_error dims d = None ->
  stateEntries dims d cs
  = if Nat.eqb (List.length cs) 0 then Ret [] else Throw TypeError.
Proof.
  intros Hd. destruct cs as [|c cs]; [reflexivity|].
  unfold stateEntries, mapiM. simpl. unfold partitionKeyAt. rewrite Hd. reflexivity.
Qed.

(** X3: building the index throws (the engine's [TypeError]) exactly on the
    payloads that make it read the keys of a dimension the dimension list
    lacks: a count without any dimension, or a non-empty grouped row with a
    single dimension.  On every other payload an index is returned. *)
Theorem load_fails_exactly_on_missing_dimension
  (loadKey : AssetKey) (dims : list PartitionHealthDimension)
  (counts : MaterializationCounts) :
  if readsMissingDimension dims counts
  then loadPartitionHealthData loadKey (AssetNode dims (Some counts)) = Throw TypeError
  else exists h,
      loadPartitionHealthData loadKey (AssetNode dims (Some counts)) = Ret h /\
      assetKey h = loadKey /\ dimensions h = dims.
Proof.
  unfold loadPartitionHealthData.
  destruct counts as [cs|grouped]; destruct dims as [|d0 [|d1 dims]];
    cbn [readsMissingDimension buildStateByKey].
  - rewrite stateEntries_without_dimension by reflexivity.
    destruct (Nat.eqb (List.length cs) 0); simpl; [|reflexivity].
    eexists. repeat split; reflexivity.
  - destruct (stateEntries_total [d0] 0 d0 cs eq_refl) as [es ->].
    eexists. repeat split; reflexivity.
  - destruct (stateEntries_total (d0 :: d1 :: dims) 0 d0 cs eq_refl) as [es ->].
    eexists. repeat split; reflexivity.
  - destruct grouped as [|row grouped]; simpl; [|reflexivity].
    eexists. repeat split; reflexivity.
  - set (f := fun (dim0 : list Z) (idx0 : nat) =>
                k0 <- partitionKeyAt [d0] 0 idx0 ;;
                inner <- stateEntries [d0] 1 dim0 ;;
                Ret (propertyKey k0, VObject (Object_fromEntries inner))).
    assert (Hf : forall row idx,
               f row idx = if Nat.eqb (List.length row) 0
                           then Ret (propertyKey (nth_error (partitionKeys d0) idx),
                                     VObject [])
                           else Throw TypeError).
    { intros row idx. unfold f. unfold partitionKeyAt at 1. simpl.
      rewrite stateEntries_without_dimension by reflexivity.
      destruct (Nat.eqb (List.length row) 0); reflexivity. }
    destruct (existsb (fun row => negb (Nat.eqb (List.length row) 0)) grouped) eqn:Hex.
    + apply existsb_exists in Hex. destruct Hex as (row & Hrow & Hne).
      apply negb_true_iff in Hne. unfold mapiM.
      rewrite (mapiM_from_throws f grouped); [reflexivity| |].
      * intros r idx. rewrite Hf. destruct (Nat.eqb (List.length r) 0).
        -- left. eexists. reflexivity.
        -- right. reflexivity.
      * exists row. split; [exact Hrow|]. intros idx. rewrite Hf, Hne. reflexivity.
    + unfold mapiM. destruct (mapiM_from_returns f grouped) with (i := 0) as [es ->].
      * intros r idx Hr. rewrite Hf.
        assert (Hempty : Nat.eqb (List.length r) 0 = true).
        { destruct (Nat.eqb (List.length r) 0) eqn:He; [reflexivity|].
          assert (Hyes : existsb (fun row => negb (Nat.eqb (List.length row) 0)) grouped
                         = true).
          { apply existsb_exists. exists r. split; [exact Hr|]. rewrite He. reflexivity. }
          rewrite Hyes in Hex. discriminate. }
        rewrite Hempty. eexists. reflexivity.
      * simpl. eexists. repeat split; reflexivity.
  - destruct (buildStateByKey_total (d0 :: d1 :: dims)
                (MaterializationCountGroupedByDimension grouped)) as [sbk Hsbk].
    + simpl. lia.
    + cbn [buildStateByKey] in Hsbk. rewrite Hsbk.
      eexists. repeat split; reflexivity.
Qed.

(** *** Partial keys *)

Lemma combine_map_snd_aligned {A B : Type} (l : list A) (l' : list B) :
  List.length l = List.length l' -> map snd (combine l l') = l'.
Proof.
  revert l'. induction l as [|a l IH]; intros [|b l'] Hlen; simpl in *;
    try reflexivity; try discriminate.
  f_equal. apply IH. lia.
Qed.

(** The state a leaf entry holds. *)
Lemma values_of_row (keys1 : list string) (row : list Z) :
  List.length row = List.length keys1 ->
  (values <- Object_values (rowObject keys1 row) ;; mergedStatesOf values)
  = (s <- mergedStates (map stateOfCount row) ;; Ret (VState s)).
Proof.
  intros Hlen. unfold rowObject, Object_values. cbn [bind].
  set (o := entriesOf keys1 row).
  set (leaf := fun e : string * JsVal =>
                 match snd e with VState s => s | _ => MISSING end).
  assert (Hleaf : forall e, In e o -> snd e = VState (leaf e)).
  { intros [k v] He. unfold o, entriesOf in He. apply in_combine_r in He.
    apply in_map_iff in He. destruct He as (c & <- & _). reflexivity. }
  assert (Hvalues : map snd (Object_entries o)
                    = map (fun e => VState (leaf e)) (Object_entries o)).
  { apply map_ext_in. intros e He. apply Hleaf.
    exact (Permutation_in _ (Object_entries_perm o) He). }
  unfold mergedStatesOf. rewrite Hvalues, asStates_map_VState.
  rewrite (mergedStates_perm _ _ (Permutation_map leaf (Object_entries_perm o))).
  assert (Hstates : map leaf o = map stateOfCount row).
  { unfold o, entriesOf.
    assert (Hsnd : map snd (combine keys1 (map (fun c => VState (stateOfCount c)) row))
                   = map (fun c => VState (stateOfCount c)) row).
    { apply combine_map_snd_aligned. rewrite length_map. symmetry. exact Hlen. }
    unfold leaf. rewrite <- (map_map snd (fun v => match v with VState s => s | _ => MISSING end)).
    rewrite Hsnd, map_map. reflexivity. }
  rewrite Hstates. reflexivity.
Qed.

Lemma gridIndex_row (loadKey : AssetKey) (d0 d1 : PartitionHealthDimension)
  (grouped : list (list Z)) (i : nat) (k0 : string) (row : list Z) :
  NoDup (partitionKeys d0) ->
  nth_error (partitionKeys d0) i = Some k0 -> nth_error grouped i = Some row ->
  getProp (VObject (stateByKey (gridIndex loadKey d0 d1 grouped))) k0
  = Ret (rowObject (partitionKeys d1) row).
Proof.
  intros Hnd Hk0 Hrow. apply getProp_own. cbn [gridIndex stateByKey].
  apply (getOwn_combine_nth _ _ i); [exact Hnd|exact Hk0|].
  apply map_nth_error. exact Hrow.
Qed.

Lemma gridIndex_exact_state (loadKey : AssetKey) (d0 d1 : PartitionHealthDimension)
  (grouped : list (list Z)) (i j : nat) (k0 k1 : string) (row : list Z) (c : Z) :
  wellFormed [d0; d1] (MaterializationCountGroupedByDimension grouped) ->
  nth_error (partitionKeys d0) i = Some k0 ->
  nth_error (partitionKeys d1) j = Some k1 ->
  nth_error grouped i = Some row -> nth_error row j = Some c ->
  stateForKey (gridIndex loadKey d0 d1 grouped) [k0; k1]
  = Ret (VState (stateOfCount c)).
Proof.
  intros (Hnd0 & Hnd1 & _ & _) Hk0 Hk1 Hrow Hc.
  rewrite stateForKey_two.
  rewrite (gridIndex_row loadKey d0 d1 grouped i k0 row Hnd0 Hk0 Hrow).
  cbn [bind]. unfold rowObject. apply getProp_own. unfold entriesOf.
  apply (getOwn_combine_nth _ _ j); [exact Hnd1|exact Hk1|].
  apply map_nth_error with (f := fun count => VState (stateOfCount count)).
  exact Hc.
Qed.

Lemma gridIndex_aggregate (loadKey : AssetKey) (d0 d1 : PartitionHealthDimension)
  (grouped : list (list Z)) (j : nat) (k : string) (parents : option (list string)) :
  wellFormed [d0; d1] (MaterializationCountGroupedByDimension grouped) ->
  nth_error (partitionKeys d1) j = Some k ->
  stateForSingleDimension (gridIndex loadKey d0 d1 grouped) 1 k parents
  = (s <- aggregateAt (partitionKeys d0) grouped j parents ;; Ret (VState s)).
Proof.
  intros (Hnd0 & Hnd1 & Hg & Hrows) Hk.
  unfold stateForSingleDimension. cbn [Z.eqb gridIndex stateByKey Pos.eqb].
  set (sbk := combine (partitionKeys d0) (map (rowObject (partitionKeys d1)) grouped)).
  set (within := fun e : string * JsVal => withinParents parents (fst e)).
  assert (Hperm : Permutation (filter within (Object_entries sbk)) (filter within sbk)).
  { apply filter_perm. apply Object_entries_perm. }
  rewrite (mapM_ret_map _ (fun e => VState (stateUnder k e))).
  - cbn [bind]. unfold mergedStatesOf. rewrite asStates_map_VState.
    rewrite (mergedStates_perm _ _ (Permutation_map (stateUnder k) Hperm)).
    unfold aggregateAt, within, sbk.
    rewrite (stateUnder_rows (partitionKeys d1) j k (withinParents parents)
               Hnd1 Hk grouped (partitionKeys d0) Hrows).
    reflexivity.
  - intros [k0 v] He.
    apply (Permutation_in _ Hperm) in He. apply filter_In in He.
    destruct He as [He _]. unfold sbk in He.
    apply in_combine_r in He. apply in_map_iff in He.
    destruct He as (row & <- & Hrow).
    rewrite Forall_forall in Hrows. specialize (Hrows row Hrow).
    unfold stateUnder, rowObject. cbn [snd].
    rewrite (row_state_at (partitionKeys d1) row j k Hnd1 Hk Hrows).
    apply getProp_own. exact (row_state_at (partitionKeys d1) row j k Hnd1 Hk Hrows).
Qed.

Lemma load_gridIndex (loadKey : AssetKey) (d0 d1 : PartitionHealthDimension)
  (grouped : list (list Z)) (h : PartitionHealthData) :
  wellFormed [d0; d1] (MaterializationCountGroupedByDimension grouped) ->
  loadPartitionHealthData loadKey
    (AssetNode [d0; d1] (Some (MaterializationCountGroupedByDimension grouped)))
  = Ret h ->
  h = gridIndex loadKey d0 d1 grouped.
Proof.
  intros Hwf Hload.
  rewrite (load_grouped_wellFormed loadKey d0 d1 grouped Hwf) in Hload.
  injection Hload as <-. reflexivity.
Qed.

(** X4: on a well-formed 2-dimension index, a partial key made of one
    dimension-0 key yields the merge of all the states of that key's row; a
    dimension-0 key that is not in the index makes the partial lookup throw
    the engine's [TypeError] ([Object.values] of [undefined]). *)
Theorem partial_key_merges_its_row
  (loadKey : AssetKey) (d0 d1 : PartitionHealthDimension)
  (grouped : list (list Z)) (h : PartitionHealthData) :
  wellFormed [d0; d1] (MaterializationCountGroupedByDimension grouped) ->
  loadPartitionHealthData loadKey
    (AssetNode [d0; d1] (Some (MaterializationCountGroupedByDimension grouped)))
  = Ret h ->
  (forall i k0 row,
      nth_error (partitionKeys d0) i = Some k0 -> nth_error grouped i = Some row ->
      stateForPartialKey h [k0]
      = (s <- mergedStates (map stateOfCount row) ;; Ret (VState s))) /\
  (forall k0, ~ In k0 (partitionKeys d0) -> inheritedName k0 = false ->
              stateForPartialKey h [k0] = Throw TypeError).
Proof.
  intros Hwf Hload. rewrite (load_gridIndex loadKey d0 d1 grouped h Hwf Hload).
  destruct Hwf as (Hnd0 & Hnd1 & Hg & Hrows). split.
  - intros i k0 row Hk0 Hrow. unfold stateForPartialKey.
    cbn [List.length gridIndex dimensions Nat.eqb nth_error propertyKey].
    fold (gridIndex loadKey d0 d1 grouped).
    change (combine (partitionKeys d0) (map (rowObject (partitionKeys d1)) grouped))
      with (stateByKey (gridIndex loadKey d0 d1 grouped)).
    rewrite (gridIndex_row loadKey d0 d1 grouped i k0 row Hnd0 Hk0 Hrow).
    cbn [bind]. apply values_of_row.
    rewrite Forall_forall in Hrows. apply Hrows. exact (nth_error_In _ _ Hrow).
  - intros k0 Hk0 Hplain. unfold stateForPartialKey.
    cbn [List.length gridIndex dimensions Nat.eqb nth_error propertyKey stateByKey].
    rewrite getProp_absent; [reflexivity| |exact Hplain].
    rewrite combine_map_fst_aligned; [exact Hk0|].
    rewrite length_map. symmetry. exact Hg.
Qed.

Lemma partial_key_merges_its_row_witness :
  wellFormed [letters; marks]
             (MaterializationCountGroupedByDimension [[1; 0]; [0; 0]]%Z) /\
  stateForPartialKey gridHealth ["a"]
  = (s <- mergedStates (map stateOfCount [1; 0]%Z) ;; Ret (VState s)) /\
  stateForPartialKey gridHealth ["q"] = Throw TypeError.
Proof.
  split; [exact grid_wellFormed|].
  pose proof (partial_key_merges_its_row keyA letters marks [[1; 0]; [0; 0]]%Z
                gridHealth grid_wellFormed gridHealth_loaded) as [Hrow Habsent].
  split.
  - exact (Hrow 0 "a" [1; 0]%Z eq_refl eq_refl).
  - apply Habsent; [simpl; intuition discriminate|reflexivity].
Defined.

(** *** Indices other than 0 and 1 *)

(** X5: for every dimension index other than 0 and 1, negative indices
    included, [stateForSingleDimension] throws
    [Error('stateForSingleDimension asked for third dimension')], whatever
    the index holds and whatever key and parent list are passed. *)
Theorem stateForSingleDimension_outside_0_1_throws
  (h : PartitionHealthData) (dimensionIdx : Z) (dimensionKey : string)
  (withinParentDimensions : option (list string)) :
  dimensionIdx <> 0%Z -> dimensionIdx <> 1%Z ->
  stateForSingleDimension h dimensionIdx dimensionKey withinParentDimensions
  = Throw (Error "stateForSingleDimension asked for third dimension").
Proof.
  intros H0 H1. unfold stateForSingleDimension.
  destruct (Z.eqb_spec dimensionIdx 0) as [Heq|_]; [contradiction|].
  destruct (Z.eqb_spec dimensionIdx 1) as [Heq|_]; [contradiction|].
  reflexivity.
Qed.

Lemma stateForSingleDimension_outside_0_1_throws_witness :
  (-1 <> 0)%Z /\ (-1 <> 1)%Z /\
  stateForSingleDimension gridHealth (-1) "x" (Some ["a"])
  = Throw (Error "stateForSingleDimension asked for third dimension").
Proof.
  assert (H0 : (-1 <> 0)%Z) by discriminate.
  assert (H1 : (-1 <> 1)%Z) by discriminate.
  split; [exact H0|split; [exact H1|]].
  exact (stateForSingleDimension_outside_0_1_throws gridHealth (-1) "x"
           (Some ["a"]) H0 H1).
Defined.

(** *** The keys of the index *)

Lemma getOwn_some_iff {V : Type} (k : string) (o : list (string * V)) :
  (exists v, getOwn k o = Some v) <-> In k (map fst o).
Proof.
  induction o as [|[k' v'] o IH]; simpl.
  - split; [intros [v Hv]; discriminate|intros []].
  - destruct (String.eqb_spec k' k) as [->|Hne].
    + split; [intros _; left; reflexivity|intros _; eexists; reflexivity].
    + rewrite IH. split; [intros H; right; exact H|].
      intros [Heq|H]; [contradiction|exact H].
Qed.

Lemma Object_entries_without_indices {V : Type} (o : list (string * V)) :
  (forall k, In k (map fst o) -> isArrayIndex k = false) ->
  Object_entries o = o.
Proof.
  intros Hplain. unfold Object_entries.
  assert (Hnone : filter (fun e : string * V => isArrayIndex (fst e)) o = []).
  { induction o as [|e o IH]; simpl; [reflexivity|].
    rewrite (Hplain (fst e) (or_introl eq_refl)). apply IH.
    intros k Hk. apply Hplain. right. exact Hk. }
  assert (Hall : filter (fun e : string * V => negb (isArrayIndex (fst e))) o = o).
  { clear Hnone. induction o as [|e o IH]; simpl; [reflexivity|].
    rewrite (Hplain (fst e) (or_introl eq_refl)). simpl. f_equal. apply IH.
    intros k Hk. apply Hplain. right. exact Hk. }
  rewrite Hnone, Hall. reflexivity.
Qed.

Lemma carriesKeys_of_creation_order (o : list (string * JsVal)) (keys : list string) :
  map fst o = keys -> carriesKeys o keys.
Proof.
  intros Hkeys. unfold carriesKeys. split; [|split].
  - intros k. rewrite <- Hkeys. apply getOwn_some_iff.
  - rewrite <- Hkeys. apply Permutation_map. apply Object_entries_perm.
  - intros Hplain. rewrite Object_entries_without_indices; [exact Hkeys|].
    rewrite Hkeys. exact Hplain.
Qed.

(** X6: the index built from a well-formed payload has an own entry for a
    key exactly when the key is a partition key of dimension 0; the keys
    [Object.entries] enumerates are those partition keys, each once, and in
    the order of the partition keys when none of them is an array index
    (array-index keys are enumerated first, in numeric order).  With one
    dimension every entry is a state; with two every entry is an object for
    which the same holds with the partition keys of dimension 1. *)
Theorem index_keys_mirror_partition_keys
  (loadKey : AssetKey) (dims : list PartitionHealthDimension)
  (counts : MaterializationCounts) (h : PartitionHealthData) :
  wellFormed dims counts ->
  loadPartitionHealthData loadKey (AssetNode dims (Some counts)) = Ret h ->
  (forall d0, nth_error dims 0 = Some d0 ->
              carriesKeys (stateByKey h) (partitionKeys d0)) /\
  (List.length dims = 1 ->
   forall k0 v, In (k0, v) (stateByKey h) -> exists s, v = VState s) /\
  (forall d1, nth_error dims 1 = Some d1 ->
   forall k0 v, In (k0, v) (stateByKey h) ->
                exists row, v = VObject row /\ carriesKeys row (partitionKeys d1)).
Proof.
  intros Hwf Hload.
  destruct dims as [|d0 [|d1 [|d2 dims]]]; try (destruct counts; contradiction).
  - destruct counts as [cs|grouped]; [|contradiction].
    rewrite (load_single_wellFormed loadKey d0 cs Hwf) in Hload.
    injection Hload as <-. destruct Hwf as [Hnd Hlen]. cbn [stateByKey].
    split; [|split].
    + intros d Hd. injection Hd as <-. apply carriesKeys_of_creation_order.
      apply entriesOf_keys. exact Hlen.
    + intros _ k0 v Hin. unfold entriesOf in Hin. apply in_combine_r in Hin.
      apply in_map_iff in Hin. destruct Hin as (c & <- & _). eexists. reflexivity.
    + intros d1 Hd1. discriminate.
  - destruct counts as [cs|grouped]; [contradiction|].
    rewrite (load_gridIndex loadKey d0 d1 grouped h Hwf Hload).
    destruct Hwf as (Hnd0 & Hnd1 & Hg & Hrows). cbn [gridIndex stateByKey].
    split; [|split].
    + intros d Hd. injection Hd as <-. apply carriesKeys_of_creation_order.
      apply combine_map_fst_aligned. rewrite length_map. symmetry. exact Hg.
    + intros Hone. discriminate.
    + intros d Hd k0 v Hin. injection Hd as <-.
      apply in_combine_r in Hin. apply in_map_iff in Hin.
      destruct Hin as (row & <- & Hrow).
      exists (entriesOf (partitionKeys d1) row). split; [reflexivity|].
      apply carriesKeys_of_creation_order.
      apply entriesOf_keys. rewrite Forall_forall in Hrows. exact (Hrows row Hrow).
Qed.

Lemma index_keys_mirror_partition_keys_witness :
  wellFormed [{| name := "n"; partitionKeys := ["b"; "10"; "2"] |}]
             (MaterializationCountSingleDimension [1; 0; 3]%Z) /\
  exists h,
    loadPartitionHealthData keyA
      (AssetNode [{| name := "n"; partitionKeys := ["b"; "10"; "2"] |}]
         (Some (MaterializationCountSingleDimension [1; 0; 3]%Z))) = Ret h /\
    map fst (Object_entries (stateByKey h)) = ["2"; "10"; "b"] /\
    Permutation (map fst (Object_entries (stateByKey h))) ["b"; "10"; "2"].
Proof.
  assert (Hwf : wellFormed [{| name := "n"; partitionKeys := ["b"; "10"; "2"] |}]
                  (MaterializationCountSingleDimension [1; 0; 3]%Z)).
  { simpl. split; [|reflexivity].
    repeat constructor; simpl; intuition discriminate. }
  split; [exact Hwf|]. eexists. split; [reflexivity|split; [reflexivity|]].
  exact (proj1 (proj2 (proj1 (index_keys_mirror_partition_keys keyA _ _ _ Hwf eq_refl)
                         _ eq_refl))).
Defined.

End HealthMore.

(* ===================================================================== *)
(** ** Further facts about the component *)
(* ===================================================================== *)

Module PartitionsMore.
Import Js Health Partitions JsFacts HealthFacts HealthMore PartitionsFacts Samples.
Local Open Scope js_scope.

Lemma PartitionState_eqb_eq (a b : PartitionState) :
  PartitionState_eqb a b = true <-> a = b.
Proof. destruct a, b; simpl; split; intros H; try reflexivity; discriminate. Qed.

Lemma includesState_In (stateFilters : list PartitionState) (v : JsVal) :
  includesState stateFilters v = true ->
  exists s, v = VState s /\ In s stateFilters.
Proof.
  destruct v as [|s|o|n]; simpl; try discriminate.
  intros Hex. apply existsb_exists in Hex. destruct Hex as (s' & Hin & Heq).
  apply PartitionState_eqb_eq in Heq. subst s'. exists s. split; [reflexivity|exact Hin].
Qed.

Lemma mapM_rows_keys (stateOf : string -> Outcome JsVal) (keys : list string) :
  forall rows,
    mapM (fun key => st <- stateOf key ;; Ret {| dimensionKey := key; state := st |})
         keys = Ret rows ->
    map dimensionKey rows = keys.
Proof.
  induction keys as [|k keys IH]; intros rows Hrows; simpl in Hrows.
  - injection Hrows as <-. reflexivity.
  - destruct (stateOf k) as [st|e|]; simpl in Hrows; try discriminate.
    destruct (mapM _ keys) as [rest|e|]; simpl in Hrows; try discriminate.
    injection Hrows as <-. simpl. rewrite (IH rest eq_refl). reflexivity.
Qed.

(** *** Separator-free keys *)

Lemma split_without_separator (sep : ascii) (s : string) :
  containsChar sep s = false -> split sep s = [s].
Proof.
  induction s as [|c s IH]; simpl; intros Hfree.
  - reflexivity.
  - apply orb_false_iff in Hfree. destruct Hfree as [Hc Hs].
    rewrite Hc, (IH Hs). reflexivity.
Qed.

Lemma split_app_separator (sep : ascii) (a rest : string) :
  containsChar sep a = false ->
  split sep (a ++ String sep rest) = a :: split sep rest.
Proof.
  induction a as [|c a IH]; simpl; intros Hfree.
  - rewrite Ascii.eqb_refl. reflexivity.
  - apply orb_false_iff in Hfree. destruct Hfree as [Hc Ha].
    rewrite Hc, (IH Ha). reflexivity.
Qed.

Lemma split_pieces_free (sep : ascii) (s piece : string) :
  In piece (split sep s) -> containsChar sep piece = false.
Proof.
  revert piece. induction s as [|c s IH]; simpl; intros piece Hin.
  - destruct Hin as [<-|[]]. reflexivity.
  - destruct (Ascii.eqb c sep) eqn:Hc.
    + destruct Hin as [<-|Hin]; [reflexivity|exact (IH piece Hin)].
    + destruct (split sep s) as [|p ps] eqn:Hsplit.
      * destruct Hin as [<-|[]]. simpl. rewrite Hc. reflexivity.
      * destruct Hin as [<-|Hin].
        -- simpl. rewrite Hc. simpl. apply IH. left. reflexivity.
        -- apply IH. right. exact Hin.
Qed.

Lemma split_join_plain (keys : list string) :
  keys <> [] -> (forall k, In k keys -> plainKey k) ->
  split "|"%char (join "|" (map Some keys)) = keys.
Proof.
  induction keys as [|k keys IH]; intros Hne Hplain; [contradiction|].
  destruct keys as [|k' keys].
  - simpl. apply split_without_separator. apply Hplain. left. reflexivity.
  - change (join "|" (map Some (k :: k' :: keys)))
      with (k ++ String "|"%char (join "|" (map Some (k' :: keys))))%string.
    rewrite split_app_separator by (apply Hplain; left; reflexivity).
    rewrite IH; [reflexivity|discriminate|].
    intros x Hx. apply Hplain. right. exact Hx.
Qed.

Lemma truthy_join (k : string) (keys : list string) :
  truthy k = true -> truthy (join "|" (map Some (k :: keys))) = true.
Proof.
  intros Hk. destruct k as [|c k]; [discriminate|].
  destruct keys; reflexivity.
Qed.

Lemma filter_all {A : Type} (p : A -> bool) (l : list A) :
  (forall a, In a l -> p a = true) -> filter p l = l.
Proof.
  induction l as [|a l IH]; intros Hall; simpl.
  - reflexivity.
  - rewrite (Hall a (or_introl eq_refl)), IH; [reflexivity|].
    intros b Hb. apply Hall. right. exact Hb.
Qed.

(** Reading back a vector of plain keys written with the separator. *)
Lemma focus_read_back (ranges : list PartitionHealthDimensionRange)
  (keys : list string) :
  1 < List.length ranges -> keys <> [] ->
  (forall k, In k keys -> plainKey k) ->
  focusedDimensionKeys {| partition := Some (join "|" (map Some keys)) |} ranges = keys.
Proof.
  intros Hlen Hne Hplain. unfold focusedDimensionKeys. cbn [partition].
  destruct keys as [|k keys]; [contradiction|].
  rewrite truthy_join by (apply Hplain; left; reflexivity).
  apply Nat.ltb_lt in Hlen. rewrite Hlen.
  rewrite (split_join_plain (k :: keys) Hne Hplain).
  apply filter_all. intros x Hx. exact (proj1 (Hplain x Hx)).
Qed.

Lemma focus_entries_plain (params : AssetViewParams)
  (ranges : list PartitionHealthDimensionRange) (s : string) :
  1 < List.length ranges ->
  In s (focusedDimensionKeys params ranges) -> plainKey s.
Proof.
  intros Hlen Hin. split; [exact (focusedDimensionKeys_truthy params ranges s Hin)|].
  unfold focusedDimensionKeys in Hin.
  destruct (partition params) as [p|]; [|destruct Hin].
  destruct (truthy p); [|destruct Hin].
  apply Nat.ltb_lt in Hlen. rewrite Hlen in Hin.
  apply filter_In in Hin. exact (split_pieces_free "|"%char p s (proj1 Hin)).
Qed.

(** X7: a focus vector of non-empty keys that contain no separator, written
    to the params string, is read back unchanged when there are several
    ranges. *)
Theorem focus_vector_roundtrip (ranges : list PartitionHealthDimensionRange)
  (keys : list string) :
  1 < List.length ranges -> keys <> [] ->
  (forall k, In k keys -> truthy k = true /\ containsChar "|"%char k = false) ->
  focusedDimensionKeys {| partition := Some (join "|" (map Some keys)) |} ranges = keys.
Proof. exact (focus_read_back ranges keys). Qed.

Lemma focus_vector_roundtrip_witness :
  1 < List.length [allLetters; allMarks] /\
  focusedDimensionKeys {| partition := Some (join "|" (map Some ["b"; "x"])) |}
                       [allLetters; allMarks] = ["b"; "x"].
Proof.
  assert (Hlen : 1 < List.length [allLetters; allMarks]) by (simpl; lia).
  split; [exact Hlen|].
  apply (focus_vector_roundtrip [allLetters; allMarks] ["b"; "x"] Hlen).
  - discriminate.
  - intros k [<-|[<-|[]]]; split; reflexivity.
Defined.

(** X8: no entry of the focus vector read from the params is empty; with
    several ranges no entry contains the separator; with at most one range
    the vector has at most one entry. *)
Theorem focus_entries_are_plain (params : AssetViewParams)
  (ranges : list PartitionHealthDimensionRange) :
  (forall s, In s (focusedDimensionKeys params ranges) -> truthy s = true) /\
  (1 < List.length ranges ->
   forall s, In s (focusedDimensionKeys params ranges) ->
             containsChar "|"%char s = false) /\
  (List.length ranges <= 1 ->
   List.length (focusedDimensionKeys params ranges) <= 1).
Proof.
  split; [|split].
  - intros s. apply focusedDimensionKeys_truthy.
  - intros Hlen s Hin. exact (proj2 (focus_entries_plain params ranges s Hlen Hin)).
  - intros Hlen. unfold focusedDimensionKeys.
    destruct (partition params) as [p|]; [|simpl; lia].
    destruct (truthy p); [|simpl; lia].
    destruct (Nat.ltb_spec 1 (List.length ranges)); [lia|simpl; lia].
Qed.

Lemma focus_entries_are_plain_witness :
  1 < List.length [allLetters; allMarks] /\
  forall s, In s (focusedDimensionKeys {| partition := Some "a||x|" |}
                                       [allLetters; allMarks]) ->
            containsChar "|"%char s = false.
Proof.
  assert (Hlen : 1 < List.length [allLetters; allMarks]) by (simpl; lia).
  split; [exact Hlen|].
  exact (proj1 (proj2 (focus_entries_are_plain {| partition := Some "a||x|" |}
                         [allLetters; allMarks])) Hlen).
Defined.

Section ExplorerMore.

Variable isTimeseriesPartition : option string -> bool.

Lemma dimensionKeysOrdered_In (range : PartitionHealthDimensionRange) (k : string) :
  In k (dimensionKeysOrdered isTimeseriesPartition range) <-> In k (selected range).
Proof.
  unfold dimensionKeysOrdered.
  destruct (isTimeseriesPartition (nth_error (selected range) 0)).
  - symmetry. apply in_rev.
  - reflexivity.
Qed.

Lemma dimensionKeysOrdered_length (range : PartitionHealthDimensionRange) :
  List.length (dimensionKeysOrdered isTimeseriesPartition range)
  = List.length (selected range).
Proof.
  unfold dimensionKeysOrdered.
  destruct (isTimeseriesPartition (nth_error (selected range) 0)).
  - apply length_rev.
  - reflexivity.
Qed.

Lemma mapM_rows_states (stateOf : string -> Outcome JsVal) (keys : list string) :
  forall rows,
    mapM (fun key => st <- stateOf key ;; Ret {| dimensionKey := key; state := st |})
         keys = Ret rows ->
    forall row, In row rows -> stateOf (dimensionKey row) = Ret (state row).
Proof.
  induction keys as [|k keys IH]; intros rows Hrows; simpl in Hrows.
  - injection Hrows as <-. intros row [].
  - destruct (stateOf k) as [st|e|] eqn:Hst; simpl in Hrows; try discriminate.
    destruct (mapM _ keys) as [rest|e|]; simpl in Hrows; try discriminate.
    injection Hrows as <-. intros row [<-|Hrow].
    + exact Hst.
    + exact (IH rest eq_refl row Hrow).
Qed.

(** X9: whenever rows are returned for a column and the time range is not
    empty, they are obtained as follows: one candidate per selected key, in
    display order (the selection reversed when its first key is a time key,
    the selection itself otherwise), each carrying the state the index
    returns for its key (the partial-key state under the focus when the
    focus reaches the column, the single-dimension state within the parent
    selection otherwise), and then the candidates whose state is not one of
    the state filters are removed.  So every row carries a selected key and
    a state among the filters, never [undefined].  Conversely, when the
    index returns a state for every selected key, these rows are
    returned. *)
Theorem rows_show_selected_keys_with_allowed_states
  (assetHealth : PartitionHealthData)
  (ranges : list PartitionHealthDimensionRange) (params : AssetViewParams)
  (stateFilters : list PartitionState)
  (range : PartitionHealthDimensionRange) (idx : nat) :
  let shown :=
    if isTimeseriesPartition (nth_error (selected range) 0)
    then rev (selected range) else selected range in
  let computed := fun key =>
    if Nat.leb idx (List.length (focusedDimensionKeys params ranges))
    then stateForPartialKey assetHealth
           (firstn idx (focusedDimensionKeys params ranges) ++ [key])
    else stateForSingleDimension assetHealth (Z.of_nat idx) key
           (parentSelection ranges idx) in
  (forall rows,
     dimensionRowsForRange isTimeseriesPartition assetHealth ranges params
                           stateFilters range idx = Ret rows ->
     (forall row, In row rows ->
        In (dimensionKey row) (selected range) /\
        exists s, state row = VState s /\ In s stateFilters) /\
     (timeRangeIsEmpty isTimeseriesPartition ranges = true -> rows = []) /\
     (timeRangeIsEmpty isTimeseriesPartition ranges = false ->
      exists candidates,
        map dimensionKey candidates = shown /\
        (forall row, In row candidates ->
                     computed (dimensionKey row) = Ret (state row)) /\
        rows = filter (fun row => includesState stateFilters (state row))
                      candidates)) /\
  (forall stateOf : string -> JsVal,
     (forall key, In key (selected range) -> computed key = Ret (stateOf key)) ->
     dimensionRowsForRange isTimeseriesPartition assetHealth ranges params
                           stateFilters range idx
     = if timeRangeIsEmpty isTimeseriesPartition ranges then Ret []
       else Ret (filter (fun row => includesState stateFilters (state row))
                        (map (fun key => {| dimensionKey := key;
                                            state := stateOf key |})
                             shown))).
Proof.
  intros shown computed. split.
  - intros rows. unfold dimensionRowsForRange.
    destruct (timeRangeIsEmpty isTimeseriesPartition ranges).
    + intros Hrows. injection Hrows as <-.
      split; [intros row []|split; [reflexivity|discriminate]].
    + destruct (mapM _ (dimensionKeysOrdered isTimeseriesPartition range))
        as [candidates|e|] eqn:Hmap; simpl; try discriminate.
      intros Hrows. injection Hrows as <-.
      pose proof (mapM_rows_keys _ _ candidates Hmap) as Hkeys.
      pose proof (mapM_rows_states _ _ candidates Hmap) as Hstates.
      split; [|split; [discriminate|]].
      * intros row Hrow. apply filter_In in Hrow. destruct Hrow as [Hrow Hstate].
        split.
        -- apply dimensionKeysOrdered_In. rewrite <- Hkeys. apply in_map. exact Hrow.
        -- apply includesState_In. exact Hstate.
      * intros _. exists candidates.
        split; [exact Hkeys|split; [exact Hstates|reflexivity]].
  - intros stateOf Hstate. unfold dimensionRowsForRange.
    destruct (timeRangeIsEmpty isTimeseriesPartition ranges); [reflexivity|].
    rewrite (mapM_ret_map _ (fun key => {| dimensionKey := key; state := stateOf key |})).
    + reflexivity.
    + intros key Hkey. apply dimensionKeysOrdered_In in Hkey.
      change (rowState assetHealth ranges (focusedDimensionKeys params ranges) idx key)
        with (computed key).
      rewrite (Hstate key Hkey). reflexivity.
Qed.

(** X10: in column 1 of a well-formed 2-dimension asset, the state of a row
    is the stored state of the coordinate under the focused dimension-0 key
    when column 0 is focused, and otherwise the merge over the dimension-0
    keys selected in range 0. *)
Theorem column1_state_follows_focus_or_selection
  (loadKey : AssetKey) (d0 d1 : PartitionHealthDimension)
  (grouped : list (list Z)) (h : PartitionHealthData)
  (ranges : list PartitionHealthDimensionRange) (j : nat) (k : string) :
  wellFormed [d0; d1] (MaterializationCountGroupedByDimension grouped) ->
  loadPartitionHealthData loadKey
    (AssetNode [d0; d1] (Some (MaterializationCountGroupedByDimension grouped)))
  = Ret h ->
  nth_error (partitionKeys d1) j = Some k ->
  (forall k0 deeper i row c,
      nth_error (partitionKeys d0) i = Some k0 ->
      nth_error grouped i = Some row -> nth_error row j = Some c ->
      rowState h ranges (k0 :: deeper) 1 k = Ret (VState (stateOfCount c))) /\
  (forall r0, nth_error ranges 0 = Some r0 ->
      rowState h ranges [] 1 k
      = (s <- aggregateAt (partitionKeys d0) grouped j (Some (selected r0)) ;;
         Ret (VState s))).
Proof.
  intros Hwf Hload Hk. rewrite (load_gridIndex loadKey d0 d1 grouped h Hwf Hload).
  split.
  - intros k0 deeper i row c Hk0 Hrow Hc. unfold rowState, stateForPartialKey.
    cbn [List.length Nat.leb firstn app gridIndex dimensions Nat.eqb].
    fold (gridIndex loadKey d0 d1 grouped).
    exact (gridIndex_exact_state loadKey d0 d1 grouped i j k0 k row c
             Hwf Hk0 Hk Hrow Hc).
  - intros r0 Hr0. unfold rowState, parentSelection.
    cbn [List.length Nat.leb Z.of_nat Pos.of_succ_nat]. rewrite Hr0.
    exact (gridIndex_aggregate loadKey d0 d1 grouped j k (Some (selected r0)) Hwf Hk).
Qed.

(** X11: a column of index 2 or more whose index the focus vector does not
    reach cannot be computed: unless the time range is empty or the range
    has no selected key, [dimensionRowsForRange] throws the error of
    [stateForSingleDimension]; with no selected key it returns no row. *)
Theorem third_column_without_focus_throws
  (assetHealth : PartitionHealthData)
  (ranges : list PartitionHealthDimensionRange) (params : AssetViewParams)
  (stateFilters : list PartitionState)
  (range : PartitionHealthDimensionRange) (idx : nat) :
  2 <= idx ->
  List.length (focusedDimensionKeys params ranges) < idx ->
  timeRangeIsEmpty isTimeseriesPartition ranges = false ->
  (selected range <> [] ->
   dimensionRowsForRange isTimeseriesPartition assetHealth ranges params
                         stateFilters range idx
   = Throw (Error "stateForSingleDimension asked for third dimension")) /\
  (selected range = [] ->
   dimensionRowsForRange isTimeseriesPartition assetHealth ranges params
                         stateFilters range idx = Ret []).
Proof.
  intros Hidx Hfocus Htime. unfold dimensionRowsForRange. rewrite Htime. split.
  - intros Hsel.
    destruct (dimensionKeysOrdered isTimeseriesPartition range) as [|key keys] eqn:Hkeys.
    + exfalso. apply Hsel. apply length_zero_iff_nil.
      rewrite <- dimensionKeysOrdered_length, Hkeys. reflexivity.
    + cbn [mapM]. unfold rowState.
      destruct (Nat.leb_spec idx (List.length (focusedDimensionKeys params ranges)));
        [lia|].
      unfold stateForSingleDimension.
      destruct (Z.eqb_spec (Z.of_nat idx) 0); [lia|].
      destruct (Z.eqb_spec (Z.of_nat idx) 1); [lia|].
      reflexivity.
  - intros Hsel. unfold dimensionKeysOrdered. rewrite Hsel.
    destruct (isTimeseriesPartition (nth_error [] 0)); reflexivity.
Qed.

(** X12: the state the range wizard shows for a key of the time dimension
    when that dimension is column 1 of a well-formed 2-dimension asset is
    the merge over all dimension-0 keys, whatever is selected in column 0;
    when the first time-ordered range is at column 2 or beyond, the wizard's
    lookup throws. *)
Theorem wizard_state_ignores_selection
  (loadKey : AssetKey) (d0 d1 : PartitionHealthDimension)
  (grouped : list (list Z)) (h : PartitionHealthData)
  (ranges : list PartitionHealthDimensionRange) (j : nat) (k : string) :
  wellFormed [d0; d1] (MaterializationCountGroupedByDimension grouped) ->
  loadPartitionHealthData loadKey
    (AssetNode [d0; d1] (Some (MaterializationCountGroupedByDimension grouped)))
  = Ret h ->
  nth_error (partitionKeys d1) j = Some k ->
  (timeRangeIdx isTimeseriesPartition ranges = Some 1 ->
   partitionStateForKey isTimeseriesPartition h ranges k
   = Some (s <- aggregateAt (partitionKeys d0) grouped j None ;; Ret (VState s))) /\
  (forall i, 2 <= i -> timeRangeIdx isTimeseriesPartition ranges = Some i ->
   partitionStateForKey isTimeseriesPartition h ranges k
   = Some (Throw (Error "stateForSingleDimension asked for third dimension"))).
Proof.
  intros Hwf Hload Hk. rewrite (load_gridIndex loadKey d0 d1 grouped h Hwf Hload).
  unfold partitionStateForKey. split.
  - intros ->. cbn [Z.of_nat Pos.of_succ_nat]. f_equal.
    exact (gridIndex_aggregate loadKey d0 d1 grouped j k None Hwf Hk).
  - intros i Hi ->. f_equal. unfold stateForSingleDimension.
    destruct (Z.eqb_spec (Z.of_nat i) 0); [lia|].
    destruct (Z.eqb_spec (Z.of_nat i) 1); [lia|].
    reflexivity.
Qed.

End ExplorerMore.

Lemma rows_show_selected_keys_with_allowed_states_witness :
  dimensionRowsForRange isDayKey gridHealth [allLetters; allMarks] noFocus
                        [SUCCESS_MISSING] allLetters 0
  = Ret [{| dimensionKey := "a"; state := VState SUCCESS_MISSING |}] /\
  (forall row,
     In row [{| dimensionKey := "a"; state := VState SUCCESS_MISSING |}] ->
     In (dimensionKey row) (selected allLetters) /\
     exists s, state row = VState s /\ In s [SUCCESS_MISSING]) /\
  dimensionRowsForRange isDayKey gridHealth [allLetters; allMarks] noFocus
                        allStates allLetters 0
  = Ret [{| dimensionKey := "a"; state := VState SUCCESS_MISSING |};
         {| dimensionKey := "b"; state := VState MISSING |}].
Proof.
  split; [reflexivity|split].
  - exact (proj1 (proj1 (rows_show_selected_keys_with_allowed_states isDayKey
                           gridHealth [allLetters; allMarks] noFocus
                           [SUCCESS_MISSING] allLetters 0)
                    _ eq_refl)).
  - rewrite (proj2 (rows_show_selected_keys_with_allowed_states isDayKey
                      gridHealth [allLetters; allMarks] noFocus allStates
                      allLetters 0)
               (fun key => if String.eqb key "a" then VState SUCCESS_MISSING
                           else VState MISSING)).
    + reflexivity.
    + intros key [<-|[<-|[]]]; reflexivity.
Defined.

Lemma column1_state_follows_focus_or_selection_witness :
  wellFormed [letters; marks]
             (MaterializationCountGroupedByDimension [[1; 0]; [0; 0]]%Z) /\
  rowState gridHealth [allLetters; allMarks] ["a"] 1 "x" = Ret (VState SUCCESS) /\
  rowState gridHealth [allLetters; allMarks] [] 1 "x"
  = (s <- aggregateAt ["a"; "b"] [[1; 0]; [0; 0]]%Z 0 (Some ["a"; "b"]) ;;
     Ret (VState s)).
Proof.
  split; [exact grid_wellFormed|].
  pose proof (column1_state_follows_focus_or_selection keyA letters marks
                [[1; 0]; [0; 0]]%Z gridHealth [allLetters; allMarks] 0 "x"
                grid_wellFormed gridHealth_loaded eq_refl) as [Hfocus Hnone].
  split.
  - exact (Hfocus "a" [] 0 [1; 0]%Z 1%Z eq_refl eq_refl eq_refl).
  - exact (Hnone allLetters eq_refl).
Defined.

Lemma third_column_without_focus_throws_witness :
  2 <= 2 /\
  dimensionRowsForRange isDayKey gridHealth [allLetters; allMarks; allAbc] noFocus
                        allStates allAbc 2
  = Throw (Error "stateForSingleDimension asked for third dimension").
Proof.
  split; [lia|].
  apply (proj1 (third_column_without_focus_throws isDayKey gridHealth
                  [allLetters; allMarks; allAbc] noFocus allStates allAbc 2
                  (le_n 2) (Nat.lt_0_succ 1) eq_refl)).
  discriminate.
Defined.

Lemma wizard_state_ignores_selection_witness :
  wellFormed [letters; marks]
             (MaterializationCountGroupedByDimension [[1; 0]; [0; 0]]%Z) /\
  timeRangeIdx (fun k => match k with Some "x" => true | _ => false end)
               [{| dimension := letters; selected := ["b"] |}; allMarks] = Some 1 /\
  partitionStateForKey (fun k => match k with Some "x" => true | _ => false end)
                       gridHealth
                       [{| dimension := letters; selected := ["b"] |}; allMarks] "x"
  = Some (s <- aggregateAt ["a"; "b"] [[1; 0]; [0; 0]]%Z 0 None ;; Ret (VState s)).
Proof.
  split; [exact grid_wellFormed|split; [reflexivity|]].
  apply (proj1 (wizard_state_ignores_selection
                  (fun k => match k with Some "x" => true | _ => false end)
                  keyA letters marks [[1; 0]; [0; 0]]%Z gridHealth
                  [{| dimension := letters; selected := ["b"] |}; allMarks] 0 "x"
                  grid_wellFormed gridHealth_loaded eq_refl)).
  reflexivity.
Defined.

Section FocusNavigation.

Variable isTimeseriesPartition : option string -> bool.

Lemma truthy_join_plain (keys : list string) :
  keys <> [] -> (forall k, In k keys -> plainKey k) ->
  truthy (join "|" (map Some keys)) = true.
Proof.
  intros Hne Hplain. destruct keys as [|k keys]; [contradiction|].
  apply truthy_join. apply Hplain. left. reflexivity.
Qed.

Lemma nth_error_rev_first {A : Type} (l : list A) :
  nth_error (rev l) 0 = nth_error l (List.length l - 1).
Proof.
  destruct l as [|a l] using rev_ind; [reflexivity|].
  rewrite rev_app_distr, length_app. simpl.
  rewrite nth_error_app2 by lia.
  replace (List.length l + 1 - 1 - List.length l) with 0 by lia. reflexivity.
Qed.

Lemma first_displayed_key (range : PartitionHealthDimensionRange) :
  nth_error (dimensionKeysOrdered isTimeseriesPartition range) 0
  = if isTimeseriesPartition (nth_error (selected range) 0)
    then nth_error (selected range) (List.length (selected range) - 1)
    else nth_error (selected range) 0.
Proof.
  unfold dimensionKeysOrdered.
  destruct (isTimeseriesPartition (nth_error (selected range) 0)); [|reflexivity].
  apply nth_error_rev_first.
Qed.

Lemma focus_of_several_ranges (params : AssetViewParams)
  (ranges : list PartitionHealthDimensionRange) :
  1 < List.length ranges ->
  focusedDimensionKeys params ranges
  = match partition params with
    | Some p => if truthy p then filter truthy (split "|"%char p) else []
    | None => []
    end.
Proof.
  intros Hlen. unfold focusedDimensionKeys. apply Nat.ltb_lt in Hlen.
  rewrite Hlen. reflexivity.
Qed.

(** C7: selecting a non-empty key in column [idx] builds a focus vector of
    length [idx + 1] and hands it on joined with the separator.  Position
    [idx] holds the chosen key and nothing follows it.  Position [j < idx]
    holds the key focused before at [j] (the [j]-th non-empty piece of the
    params string split at the separator; the [j]-th key of the vector the
    string was written from) when there is one, and otherwise the first key
    of range [j] in displayed order: its last selected key when the range is
    time-ordered, its first selected key when it is not.  With no focus at
    all, selecting in column 1 puts that first displayed key of range 0
    first. *)
Theorem setFocusedDimensionKey_focus_vector
  (params : AssetViewParams) (ranges : list PartitionHealthDimensionRange)
  (idx : nat) (key : string) :
  idx < List.length ranges ->
  truthy key = true ->
  exists next,
    nextFocusedDimensionKeys isTimeseriesPartition
      (focusedDimensionKeys params ranges) ranges idx (Some key) = Ret next /\
    setFocusedDimensionKey isTimeseriesPartition params ranges idx (Some key)
      = Ret {| partition := Some (join "|" next) |} /\
    List.length next = S idx /\
    nth_error next idx = Some (Some key) /\
    (forall j r, j < idx -> nth_error ranges j = Some r ->
       nth_error next j =
       Some (match nth_error
                     (match partition params with
                      | Some p => if truthy p then filter truthy (split "|"%char p)
                                  else []
                      | None => []
                      end) j with
             | Some previous => Some previous
             | None =>
                 if isTimeseriesPartition (nth_error (selected r) 0)
                 then nth_error (selected r) (List.length (selected r) - 1)
                 else nth_error (selected r) 0
             end)) /\
    (forall keys,
       keys <> [] -> (forall k, In k keys -> plainKey k) ->
       partition params = Some (join "|" (map Some keys)) ->
       forall j k, j < idx -> nth_error keys j = Some k ->
                   nth_error next j = Some (Some k)) /\
    (idx = 1 -> partition params = None ->
     forall r0, nth_error ranges 0 = Some r0 ->
       nth_error next 0
       = Some (if isTimeseriesPartition (nth_error (selected r0) 0)
               then nth_error (selected r0) (List.length (selected r0) - 1)
               else nth_error (selected r0) 0)).
Proof.
  intros Hidx Hkey.
  set (focused := focusedDimensionKeys params ranges).
  set (pick := fun j =>
         match nth_error focused j with
         | Some previous => Some previous
         | None =>
             match nth_error ranges j with
             | Some r => nth_error (dimensionKeysOrdered isTimeseriesPartition r) 0
             | None => None
             end
         end).
  assert (Hdefaults :
            mapM (focusOrDefault isTimeseriesPartition focused ranges) (seq 0 idx)
            = Ret (map pick (seq 0 idx))).
  { apply mapM_ret_map. intros j Hj. apply in_seq in Hj.
    unfold focusOrDefault, pick, firstDisplayedKey.
    destruct (nth_error focused j) as [s|] eqn:Hs.
    - rewrite (focusedDimensionKeys_truthy params ranges s (nth_error_In _ _ Hs)).
      reflexivity.
    - destruct (nth_error ranges j) as [r|] eqn:Hr; [reflexivity|].
      apply nth_error_None in Hr. lia. }
  assert (Hpick : forall j, j < idx ->
            nth_error (map pick (seq 0 idx) ++ [Some key]) j = Some (pick j)).
  { intros j Hj. rewrite nth_error_app1 by (rewrite length_map, length_seq; exact Hj).
    rewrite nth_error_map, nth_error_seq.
    apply Nat.ltb_lt in Hj. rewrite Hj. reflexivity. }
  exists (map pick (seq 0 idx) ++ [Some key]).
  split; [|split; [|split; [|split; [|split; [|split]]]]].
  - unfold nextFocusedDimensionKeys. rewrite Hdefaults. simpl. rewrite Hkey. reflexivity.
  - unfold setFocusedDimensionKey, nextFocusedDimensionKeys. fold focused.
    rewrite Hdefaults. simpl. rewrite Hkey. reflexivity.
  - rewrite length_app, length_map, length_seq. simpl. lia.
  - rewrite nth_error_app2 by (rewrite length_map, length_seq; lia).
    rewrite length_map, length_seq, Nat.sub_diag. reflexivity.
  - intros j r Hj Hr. rewrite (Hpick j Hj). unfold pick, focused.
    rewrite focus_of_several_ranges by lia.
    rewrite Hr, first_displayed_key. reflexivity.
  - intros keys Hne Hplain Hwritten j k Hj Hk. rewrite (Hpick j Hj).
    assert (Hread : focused = keys).
    { unfold focused. destruct params as [p]. simpl in Hwritten. rewrite Hwritten.
      apply focus_read_back; [lia|exact Hne|exact Hplain]. }
    unfold pick. rewrite Hread, Hk. reflexivity.
  - intros -> Hnone r0 Hr0. rewrite (Hpick 0 (Nat.lt_0_succ 0)).
    assert (Hempty : focused = []).
    { unfold focused, focusedDimensionKeys. rewrite Hnone. reflexivity. }
    unfold pick. rewrite Hempty, nth_error_nil, Hr0, first_displayed_key. reflexivity.
Qed.

(** X13: with several ranges whose selected keys are all non-empty and free
    of the separator, selecting such a key in column [idx] (every earlier
    range having a selected key) writes a string from which the next render
    reads back exactly the vector that was built, of length [idx + 1]; the
    detail pane then loads a partition exactly when [idx] is the last
    column. *)
Theorem selecting_writes_a_readable_focus
  (params : AssetViewParams) (ranges : list PartitionHealthDimensionRange)
  (idx : nat) (key : string) :
  1 < List.length ranges ->
  idx < List.length ranges ->
  truthy key = true -> containsChar "|"%char key = false ->
  (forall r k, In r ranges -> In k (selected r) ->
               truthy k = true /\ containsChar "|"%char k = false) ->
  (forall j r, j < idx -> nth_error ranges j = Some r -> selected r <> []) ->
  exists params' next,
    setFocusedDimensionKey isTimeseriesPartition params ranges idx (Some key)
      = Ret params' /\
    nextFocusedDimensionKeys isTimeseriesPartition
      (focusedDimensionKeys params ranges) ranges idx (Some key) = Ret next /\
    map Some (focusedDimensionKeys params' ranges) = next /\
    List.length (focusedDimensionKeys params' ranges) = S idx /\
    detailShown params' ranges = Nat.eqb (S idx) (List.length ranges).
Proof.
  intros Hseveral Hidx Hkey Hfree Hselected Hnonempty.
  set (focused := focusedDimensionKeys params ranges).
  set (pickKey := fun j =>
         match nth_error focused j with
         | Some previous => previous
         | None =>
             match nth_error ranges j with
             | Some r => nth 0 (dimensionKeysOrdered isTimeseriesPartition r) ""
             | None => ""
             end
         end).
  assert (Hfirst : forall j r, j < idx -> nth_error ranges j = Some r ->
            0 < List.length (dimensionKeysOrdered isTimeseriesPartition r)).
  { intros j r Hj Hr. rewrite dimensionKeysOrdered_length.
    specialize (Hnonempty j r Hj Hr). destruct (selected r); [contradiction|simpl; lia]. }
  assert (Hdefaults :
            mapM (focusOrDefault isTimeseriesPartition focused ranges) (seq 0 idx)
            = Ret (map (fun j => Some (pickKey j)) (seq 0 idx))).
  { apply mapM_ret_map. intros j Hj. apply in_seq in Hj.
    unfold focusOrDefault, pickKey, firstDisplayedKey.
    destruct (nth_error focused j) as [s|] eqn:Hs.
    - rewrite (focusedDimensionKeys_truthy params ranges s (nth_error_In _ _ Hs)).
      reflexivity.
    - destruct (nth_error ranges j) as [r|] eqn:Hr.
      + rewrite (nth_error_nth' _ "" (Hfirst j r (proj2 Hj) Hr)). reflexivity.
      + apply nth_error_None in Hr. lia. }
  set (keys := map pickKey (seq 0 idx) ++ [key]).
  assert (Hnext : map Some keys
                  = map (fun j => Some (pickKey j)) (seq 0 idx) ++ [Some key]).
  { unfold keys. rewrite map_app, map_map. reflexivity. }
  assert (Hplain : forall k, In k keys -> plainKey k).
  { intros k Hk. unfold keys in Hk. apply in_app_or in Hk.
    destruct Hk as [Hk|[<-|[]]]; [|split; assumption].
    apply in_map_iff in Hk. destruct Hk as (j & <- & Hj). apply in_seq in Hj.
    unfold pickKey. destruct (nth_error focused j) as [s|] eqn:Hs.
    - exact (focus_entries_plain params ranges s Hseveral (nth_error_In _ _ Hs)).
    - destruct (nth_error ranges j) as [r|] eqn:Hr.
      + apply (Hselected r); [exact (nth_error_In _ _ Hr)|].
        apply (dimensionKeysOrdered_In isTimeseriesPartition).
        apply nth_In. exact (Hfirst j r (proj2 Hj) Hr).
      + apply nth_error_None in Hr. lia. }
  assert (Hne : keys <> []).
  { unfold keys. intros Hnil. apply app_eq_nil in Hnil. destruct Hnil. discriminate. }
  assert (Hread : focusedDimensionKeys
                    {| partition := Some (join "|" (map Some keys)) |} ranges = keys).
  { exact (focus_read_back ranges keys Hseveral Hne Hplain). }
  assert (Hlen : List.length keys = S idx).
  { unfold keys. rewrite length_app, length_map, length_seq. simpl. lia. }
  exists {| partition := Some (join "|" (map Some keys)) |}, (map Some keys).
  split; [|split; [|split; [|split]]].
  - unfold setFocusedDimensionKey, nextFocusedDimensionKeys. fold focused.
    rewrite Hdefaults. cbn [bind]. rewrite Hkey, Hnext. reflexivity.
  - unfold nextFocusedDimensionKeys. fold focused.
    rewrite Hdefaults. cbn [bind]. rewrite Hkey, Hnext. reflexivity.
  - rewrite Hread. reflexivity.
  - rewrite Hread. exact Hlen.
  - unfold detailShown. rewrite Hread. cbn [partition].
    rewrite (truthy_join_plain keys Hne Hplain), Hlen. reflexivity.
Qed.

End FocusNavigation.

Lemma setFocusedDimensionKey_focus_vector_witness :
  1 < List.length [bothDays; allMarks] /\
  truthy "y" = true /\
  (exists next,
     nextFocusedDimensionKeys isDayKey
       (focusedDimensionKeys noFocus [bothDays; allMarks])
       [bothDays; allMarks] 1 (Some "y") = Ret next /\
     List.length next = 2 /\
     nth_error next 0 = Some (Some "2022-01-02") /\
     nth_error next 1 = Some (Some "y")) /\
  (exists next,
     nextFocusedDimensionKeys isDayKey
       (focusedDimensionKeys {| partition := Some "b|x" |} [allLetters; allMarks])
       [allLetters; allMarks] 1 (Some "y") = Ret next /\
     nth_error next 0 = Some (Some "b") /\
     nth_error next 1 = Some (Some "y")).
Proof.
  assert (Hidx : 1 < List.length [bothDays; allMarks]) by (simpl; lia).
  split; [exact Hidx|split; [reflexivity|split]].
  - pose proof (setFocusedDimensionKey_focus_vector isDayKey noFocus
                  [bothDays; allMarks] 1 "y" Hidx eq_refl)
      as [next (Hnext & _ & Hlen & Hlast & _ & _ & Hfirst)].
    exists next. split; [exact Hnext|split; [exact Hlen|split; [|exact Hlast]]].
    exact (Hfirst eq_refl eq_refl bothDays eq_refl).
  - assert (Hidx' : 1 < List.length [allLetters; allMarks]) by (simpl; lia).
    pose proof (setFocusedDimensionKey_focus_vector isDayKey
                  {| partition := Some "b|x" |} [allLetters; allMarks] 1 "y"
                  Hidx' eq_refl)
      as [next (Hnext & _ & _ & Hlast & _ & Hwritten & _)].
    exists next. split; [exact Hnext|split; [|exact Hlast]].
    apply (Hwritten ["b"; "x"]) with (j := 0).
    + discriminate.
    + intros k [<-|[<-|[]]]; split; reflexivity.
    + reflexivity.
    + lia.
    + reflexivity.
Defined.

Lemma selecting_writes_a_readable_focus_witness :
  1 < List.length [allLetters; allMarks] /\
  exists params',
    setFocusedDimensionKey isDayKey noFocus [allLetters; allMarks] 1 (Some "y")
      = Ret params' /\
    List.length (focusedDimensionKeys params' [allLetters; allMarks]) = 2 /\
    detailShown params' [allLetters; allMarks] = true.
Proof.
  assert (Hlen : 1 < List.length [allLetters; allMarks]) by (simpl; lia).
  split; [exact Hlen|].
  destruct (selecting_writes_a_readable_focus isDayKey noFocus
              [allLetters; allMarks] 1 "y" Hlen Hlen eq_refl eq_refl)
    as (params' & next & Hset & _ & _ & Hcount & Hdetail).
  - intros r k [<-|[<-|[]]] Hk; simpl in Hk;
      repeat (destruct Hk as [<-|Hk]; [split; reflexivity|]); destruct Hk.
  - intros j r Hj Hr. destruct j as [|j]; [|lia].
    simpl in Hr. injection Hr as <-. discriminate.
  - exists params'. split; [exact Hset|split; [exact Hcount|exact Hdetail]].
Defined.

Section OneDimension.

Variable isTimeseriesPartition : option string -> bool.

Lemma includesState_iff (stateFilters : list PartitionState) (s : PartitionState) :
  includesState stateFilters (VState s) = true <-> In s stateFilters.
Proof.
  simpl. rewrite existsb_exists. split.
  - intros (s' & Hin & Heq). apply PartitionState_eqb_eq in Heq. subst s'. exact Hin.
  - intros Hin. exists s. split; [exact Hin|]. apply PartitionState_eqb_eq. reflexivity.
Qed.

(** X18: for a well-formed 1-dimension asset whose range selects partition
    keys of the asset, rows are returned (unless the time range is empty),
    and a selected key has its row, carrying the state of its count, exactly
    when that state is one of the active state filters. *)
Theorem one_dimension_rows_show_stored_states
  (loadKey : AssetKey) (d0 : PartitionHealthDimension) (cs : list Z)
  (h : PartitionHealthData)
  (ranges : list PartitionHealthDimensionRange) (params : AssetViewParams)
  (stateFilters : list PartitionState) (range : PartitionHealthDimensionRange) :
  wellFormed [d0] (MaterializationCountSingleDimension cs) ->
  loadPartitionHealthData loadKey
    (AssetNode [d0] (Some (MaterializationCountSingleDimension cs))) = Ret h ->
  timeRangeIsEmpty isTimeseriesPartition ranges = false ->
  (forall k, In k (selected range) -> In k (partitionKeys d0)) ->
  exists rows,
    dimensionRowsForRange isTimeseriesPartition h ranges params stateFilters range 0
      = Ret rows /\
    forall i key c,
      nth_error (partitionKeys d0) i = Some key -> nth_error cs i = Some c ->
      In key (selected range) ->
      (In {| dimensionKey := key; state := VState (stateOfCount c) |} rows
       <-> In (stateOfCount c) stateFilters).
Proof.
  intros Hwf Hload Htime Hsel.
  rewrite (load_single_wellFormed loadKey d0 cs Hwf) in Hload. injection Hload as <-.
  fold (lineIndex loadKey d0 cs). destruct Hwf as [Hnd Hlen].
  set (stored := fun key =>
         match getOwn key (entriesOf (partitionKeys d0) cs) with
         | Some v => v
         | None => VUndefined
         end).
  assert (Hstored : forall i key c,
            nth_error (partitionKeys d0) i = Some key -> nth_error cs i = Some c ->
            getOwn key (entriesOf (partitionKeys d0) cs)
            = Some (VState (stateOfCount c))).
  { intros i key c Hkey Hc. unfold entriesOf.
    apply (getOwn_combine_nth _ _ i); [exact Hnd|exact Hkey|].
    apply map_nth_error with (f := fun count => VState (stateOfCount count)).
    exact Hc. }
  set (mk := fun key => {| dimensionKey := key; state := stored key |}).
  assert (Hmap :
            mapM (fun key =>
                    st <- rowState (lineIndex loadKey d0 cs) ranges
                                   (focusedDimensionKeys params ranges) 0 key ;;
                    Ret {| dimensionKey := key; state := st |})
                 (dimensionKeysOrdered isTimeseriesPartition range)
            = Ret (map mk (dimensionKeysOrdered isTimeseriesPartition range))).
  { apply mapM_ret_map. intros key Hkey.
    apply dimensionKeysOrdered_In in Hkey. apply Hsel in Hkey.
    destruct (In_nth_error _ _ Hkey) as [i Hi].
    assert (Hi' : i < List.length cs).
    { rewrite Hlen. apply nth_error_Some. rewrite Hi. discriminate. }
    destruct (nth_error cs i) as [c|] eqn:Hc; [|apply nth_error_None in Hc; lia].
    change (rowState (lineIndex loadKey d0 cs) ranges
              (focusedDimensionKeys params ranges) 0 key)
      with (getProp (VObject (entriesOf (partitionKeys d0) cs)) key).
    rewrite (getProp_own _ key _ (Hstored i key c Hi Hc)). cbn [bind].
    unfold mk, stored. rewrite (Hstored i key c Hi Hc). reflexivity. }
  exists (filter (fun row => includesState stateFilters (state row))
                 (map mk (dimensionKeysOrdered isTimeseriesPartition range))).
  split.
  - unfold dimensionRowsForRange. rewrite Htime, Hmap. reflexivity.
  - intros i key c Hkey Hc Hin. rewrite filter_In. cbn [state].
    rewrite includesState_iff. split; [intros [_ H]; exact H|].
    intros Hallowed. split; [|exact Hallowed].
    apply in_map_iff. exists key. split.
    + unfold mk, stored. rewrite (Hstored i key c Hkey Hc). reflexivity.
    + apply dimensionKeysOrdered_In. exact Hin.
Qed.

End OneDimension.

Lemma one_dimension_rows_show_stored_states_witness :
  wellFormed [abc] (MaterializationCountSingleDimension [0; 2; 0]%Z) /\
  exists rows,
    dimensionRowsForRange isDayKey abcHealth [allAbc] noFocus [SUCCESS] allAbc 0
      = Ret rows /\
    (In {| dimensionKey := "b"; state := VState (stateOfCount 2) |} rows
     <-> In (stateOfCount 2) [SUCCESS]).
Proof.
  split; [exact abc_wellFormed|].
  destruct (one_dimension_rows_show_stored_states isDayKey keyA abc [0; 2; 0]%Z
              abcHealth [allAbc] noFocus [SUCCESS] allAbc
              abc_wellFormed abcHealth_loaded eq_refl (fun k H => H))
    as [rows [Hrows Hiff]].
  exists rows. split; [exact Hrows|].
  exact (Hiff 1 "b" 2%Z eq_refl eq_refl (or_intror (or_introl eq_refl))).
Defined.

End PartitionsMore.

(* ===================================================================== *)
(** ** Further facts about the hook *)
(* ===================================================================== *)

Module HookMore.
Import Js Health Hook HookFacts Samples.

Lemma run_app (before after : list Event) :
  run (before ++ after) = fold_left step after (run before).
Proof. unfold run. apply fold_left_app. Qed.

Lemma step_result_grows (st : HookState) (ev : Event) :
  exists more, result (step st ev) = result st ++ more.
Proof.
  destruct ev as [c ks|n data|n]; simpl.
  - unfold render. destruct (depsChanged _ _).
    + destruct (missingKeyJSON ks (result st)); exists []; simpl;
        rewrite app_nil_r; reflexivity.
    + exists []. rewrite app_nil_r. reflexivity.
  - destruct (nth_error (inFlight st) n); [|exists []; rewrite app_nil_r; reflexivity].
    destruct (loadPartitionHealthData _ _) as [loaded| |]; simpl.
    + exists [loaded]. reflexivity.
    + exists []. rewrite app_nil_r. reflexivity.
    + exists []. rewrite app_nil_r. reflexivity.
  - exists []. simpl. rewrite app_nil_r. reflexivity.
Qed.

Lemma steps_result_grow (events : list Event) (st : HookState) :
  exists more, result (fold_left step events st) = result st ++ more.
Proof.
  revert st. induction events as [|ev events IH]; intros st; simpl.
  - exists []. rewrite app_nil_r. reflexivity.
  - destruct (IH (step st ev)) as [more Hmore].
    destruct (step_result_grows st ev) as [first Hfirst].
    exists (first ++ more). rewrite Hmore, Hfirst, app_assoc. reflexivity.
Qed.

(** X14: the indexes the hook holds are only ever appended to: whatever
    renders, answers and failures follow, the earlier [result] stays a
    prefix of the later one (no entry is dropped, replaced or reordered). *)
Theorem result_is_append_only (before after : list Event) :
  exists more, result (run (before ++ after)) = result (run before) ++ more.
Proof. rewrite run_app. apply steps_result_grow. Qed.

Lemma step_resolved_no_query (st : HookState) (ev : Event) (k : AssetKey) :
  resolved k (result st) -> fetchCount k (step st ev) = fetchCount k st.
Proof.
  intros Hres. destruct ev as [c ks|n data|n]; simpl.
  - unfold render. destruct (depsChanged _ _); [|reflexivity].
    destruct (missingKeyJSON ks (result st)) as [loadKey|] eqn:Hmiss; [|reflexivity].
    unfold fetchCount. simpl. rewrite filter_app, length_app. simpl.
    destruct (AssetKey_eqb k loadKey) eqn:Hk; [|simpl; lia].
    apply AssetKey_eqb_eq in Hk. subst loadKey.
    destruct (missingKeyJSON_some _ _ _ Hmiss) as [_ Hunres]. contradiction.
  - destruct (nth_error (inFlight st) n); [|reflexivity].
    destruct (loadPartitionHealthData _ _); reflexivity.
  - reflexivity.
Qed.

Lemma steps_resolved_no_query (events : list Event) (st : HookState) (k : AssetKey) :
  resolved k (result st) ->
  fetchCount k (fold_left step events st) = fetchCount k st.
Proof.
  revert st. induction events as [|ev events IH]; intros st Hres; simpl.
  - reflexivity.
  - rewrite IH.
    + apply step_resolved_no_query. exact Hres.
    + destruct (step_result_grows st ev) as [more ->]. apply resolved_app. exact Hres.
Qed.

(** X15: once an index for an asset key is in [result], no later render
    sends a query for that key, whatever clients and key lists the renders
    pass: the number of queries sent for it never changes again. *)
Theorem resolved_key_is_never_queried_again
  (before after : list Event) (k : AssetKey) :
  resolved k (result (run before)) ->
  fetchCount k (run (before ++ after)) = fetchCount k (run before).
Proof. intros Hres. rewrite run_app. apply steps_resolved_no_query. exact Hres. Qed.

Lemma resolved_key_is_never_queried_again_witness :
  resolved keyA (result (run [Render 0 [keyA]; QueryAnswered 0 abcPayload])) /\
  fetchCount keyA
    (run ([Render 0 [keyA]; QueryAnswered 0 abcPayload]
          ++ [Render 1 [keyB; keyA]; Render 2 [keyA]]))
  = fetchCount keyA (run [Render 0 [keyA]; QueryAnswered 0 abcPayload]).
Proof.
  assert (Hres : resolved keyA
                   (result (run [Render 0 [keyA]; QueryAnswered 0 abcPayload]))).
  { exists abcHealth. split; [left; reflexivity|reflexivity]. }
  split; [exact Hres|].
  exact (resolved_key_is_never_queried_again
           [Render 0 [keyA]; QueryAnswered 0 abcPayload]
           [Render 1 [keyB; keyA]; Render 2 [keyA]] keyA Hres).
Defined.

Section FixedRequestMore.

Variable client : nat.
Variable assetKeys : list AssetKey.

Lemma render_changes_only_when_idle (st : HookState) :
  consistent client assetKeys st ->
  depsChanged (memoDeps st) (client, missingKeyJSON assetKeys (result st)) = true ->
  inFlight st = [].
Proof.
  intros (_ & _ & Hfly & _ & Hmemo) Hch. apply depsChanged_differs in Hch.
  destruct (inFlight st) as [|k rest] eqn:Hin; [reflexivity|]. exfalso.
  destruct (Hfly k (or_introl eq_refl)) as [Hm Hunres].
  destruct (Hmemo client k Hm) as [Hres|Hmiss]; [exact (Hunres Hres)|].
  apply Hch. rewrite Hmiss. exact Hm.
Qed.

Lemma distinct_step (st : HookState) (ev : Event) :
  isRenderOf client assetKeys ev ->
  consistent client assetKeys st ->
  NoDup (map assetKey (result st) ++ inFlight st) ->
  NoDup (map assetKey (result (step st ev)) ++ inFlight (step st ev)).
Proof.
  intros Hev Hst Hnd. destruct ev as [c ks|n data|n]; simpl in *.
  - destruct Hev as [-> ->]. unfold render.
    destruct (depsChanged _ _) eqn:Hch; [|exact Hnd].
    pose proof (render_changes_only_when_idle st Hst Hch) as Hidle.
    destruct (missingKeyJSON assetKeys (result st)) as [loadKey|] eqn:Hmiss;
      simpl; [|exact Hnd].
    rewrite Hidle in *. simpl. rewrite app_nil_r in Hnd.
    apply NoDup_snoc; [exact Hnd|].
    destruct (missingKeyJSON_some _ _ _ Hmiss) as [_ Hunres].
    intros Hin. apply in_map_iff in Hin. destruct Hin as (r & Hr & Hin).
    apply Hunres. exists r. split; [exact Hin|exact Hr].
  - destruct (nth_error (inFlight st) n) as [loadKey|] eqn:Hn; [|exact Hnd].
    destruct Hst as (_ & Hlen & _).
    destruct (removeNth_single n (inFlight st) loadKey Hlen Hn) as [Hone Hnone].
    rewrite Hone in Hnd.
    destruct (loadPartitionHealthData loadKey data) as [loaded| |] eqn:Hloaded;
      simpl; rewrite Hnone, app_nil_r.
    + rewrite map_app. simpl. rewrite (load_assetKey loadKey data loaded Hloaded).
      exact Hnd.
    + exact (NoDup_app_remove_r _ _ Hnd).
    + exact (NoDup_app_remove_r _ _ Hnd).
  - destruct Hst as (_ & Hlen & _).
    destruct (removeNth_short n (inFlight st) Hlen) as [-> | ->]; [exact Hnd|].
    rewrite app_nil_r. exact (NoDup_app_remove_r _ _ Hnd).
Qed.

Lemma distinct_run (events : list Event) (st : HookState) :
  Forall (isRenderOf client assetKeys) events ->
  consistent client assetKeys st ->
  NoDup (map assetKey (result st) ++ inFlight st) ->
  NoDup (map assetKey (result (fold_left step events st))
         ++ inFlight (fold_left step events st)).
Proof.
  revert st. induction events as [|ev events IH]; intros st Hall Hst Hnd; simpl.
  - exact Hnd.
  - inversion Hall as [|? ? Hev Hrest]; subst. apply IH.
    + exact Hrest.
    + apply consistent_step; assumption.
    + apply distinct_step; assumption.
Qed.

Lemma distinct_keys_kept (keep : PartitionHealthData -> bool)
  (res : list PartitionHealthData) :
  NoDup (map assetKey res) -> NoDup (map assetKey (filter keep res)).
Proof.
  induction res as [|r res IH]; simpl; intros Hkeys.
  - constructor.
  - apply NoDup_cons_iff in Hkeys. destruct Hkeys as [Hfresh Hrest].
    destruct (keep r); simpl.
    + apply NoDup_cons_iff. split; [|exact (IH Hrest)].
      intros Hin. apply Hfresh. apply in_map_iff in Hin.
      destruct Hin as (other & Hsame & Hkept). apply filter_In in Hkept.
      rewrite <- Hsame. apply in_map. exact (proj1 Hkept).
    + exact (IH Hrest).
Qed.

(** X16: while every render passes the same client and the same list of
    asset keys, the hook never holds two indexes for one asset key, a key
    with an outstanding query has no index yet, and the list a render
    returns has at most one index per asset key. *)
Theorem one_index_per_key_for_a_fixed_request (events : list Event) :
  Forall (isRenderOf client assetKeys) events ->
  NoDup (map assetKey (result (run events))) /\
  (forall k, In k (inFlight (run events)) -> ~ resolved k (result (run events))) /\
  NoDup (map assetKey (observed assetKeys (run events))).
Proof.
  intros Hall.
  assert (Hnd : NoDup (map assetKey (result (run events)) ++ inFlight (run events))).
  { apply distinct_run; [exact Hall|apply consistent_initial|constructor]. }
  pose proof (consistent_run client assetKeys events initial Hall
                (consistent_initial client assetKeys)) as (_ & _ & Hfly & _).
  split; [exact (NoDup_app_remove_r _ _ Hnd)|split].
  - intros k Hk. exact (proj2 (Hfly k Hk)).
  - unfold observed. apply distinct_keys_kept. exact (NoDup_app_remove_r _ _ Hnd).
Qed.

(** X17: a failed query is never retried.  While every render passes the
    same client and the same list of asset keys, once no query is
    outstanding and the key the memo last ran for is still unresolved (its
    query failed or was answered with a payload the index cannot be built
    from), no later event changes the state of the hook: nothing more is
    queried or resolved. *)
Theorem failed_query_stalls_the_hook (before after : list Event) (k : AssetKey) :
  Forall (isRenderOf client assetKeys) (before ++ after) ->
  inFlight (run before) = [] ->
  memoDeps (run before) = Some (client, Some k) ->
  ~ resolved k (result (run before)) ->
  run (before ++ after) = run before.
Proof.
  intros Hall Hidle Hmemo Hunres. rewrite run_app.
  apply Forall_app in Hall. destruct Hall as [Hbefore Hafter].
  pose proof (consistent_run client assetKeys before initial Hbefore
                (consistent_initial client assetKeys)) as Hst.
  fold (run before) in Hst.
  assert (Hstall : forall ev, isRenderOf client assetKeys ev ->
                              step (run before) ev = run before).
  { intros ev Hev. destruct ev as [c ks|n data|n]; simpl in *.
    - destruct Hev as [-> ->]. unfold render.
      destruct Hst as (_ & _ & _ & _ & Hm).
      destruct (Hm client k Hmemo) as [Hres|Hmiss]; [contradiction|].
      rewrite Hmiss, Hmemo. unfold depsChanged. rewrite sameDeps_refl. reflexivity.
    - rewrite Hidle. destruct n; reflexivity.
    - rewrite Hidle. unfold removeNth.
      destruct (run before) as [res memo fly sent]. simpl in *. subst fly.
      destruct n; reflexivity. }
  clear Hbefore. induction after as [|ev after IH]; simpl; [reflexivity|].
  inversion Hafter as [|? ? Hev Hrest]; subst.
  rewrite (Hstall ev Hev). exact (IH Hrest).
Qed.

End FixedRequestMore.

Lemma one_index_per_key_for_a_fixed_request_witness :
  Forall (isRenderOf 0 [keyA; keyB])
         [Render 0 [keyA; keyB]; QueryAnswered 0 abcPayload; Render 0 [keyA; keyB];
          QueryAnswered 0 gridPayload; Render 0 [keyA; keyB]] /\
  NoDup (map assetKey
           (result (run [Render 0 [keyA; keyB]; QueryAnswered 0 abcPayload;
                         Render 0 [keyA; keyB]; QueryAnswered 0 gridPayload;
                         Render 0 [keyA; keyB]]))).
Proof.
  assert (Hall : Forall (isRenderOf 0 [keyA; keyB])
                   [Render 0 [keyA; keyB]; QueryAnswered 0 abcPayload;
                    Render 0 [keyA; keyB]; QueryAnswered 0 gridPayload;
                    Render 0 [keyA; keyB]]).
  { repeat constructor. }
  split; [exact Hall|].
  exact (proj1 (one_index_per_key_for_a_fixed_request 0 [keyA; keyB] _ Hall)).
Defined.

Lemma failed_query_stalls_the_hook_witness :
  Forall (isRenderOf 0 [keyA; keyB])
         ([Render 0 [keyA; keyB]; QueryFailed 0]
          ++ [Render 0 [keyA; keyB]; Render 0 [keyA; keyB]]) /\
  run ([Render 0 [keyA; keyB]; QueryFailed 0]
       ++ [Render 0 [keyA; keyB]; Render 0 [keyA; keyB]])
  = run [Render 0 [keyA; keyB]; QueryFailed 0].
Proof.
  assert (Hall : Forall (isRenderOf 0 [keyA; keyB])
                   ([Render 0 [keyA; keyB]; QueryFailed 0]
                    ++ [Render 0 [keyA; keyB]; Render 0 [keyA; keyB]])).
  { repeat constructor. }
  split; [exact Hall|].
  apply (failed_query_stalls_the_hook 0 [keyA; keyB]
           [Render 0 [keyA; keyB]; QueryFailed 0]
           [Render 0 [keyA; keyB]; Render 0 [keyA; keyB]] keyA Hall).
  - reflexivity.
  - reflexivity.
  - intros (r & Hr & _). destruct Hr.
Defined.

(** *** Only requested keys are queried *)

Lemma In_removeNth {A : Type} (n : nat) (l : list A) (x : A) :
  In x (removeNth n l) -> In x l.
Proof.
  unfold removeNth. intros Hin. apply in_app_or in Hin.
  rewrite <- (firstn_skipn n l). apply in_or_app. destruct Hin as [Hin|Hin].
  - left. exact Hin.
  - right. rewrite <- (firstn_skipn 1 (skipn n l)). apply in_or_app. right.
    rewrite skipn_skipn. exact Hin.
Qed.

Lemma requested_step (st : HookState) (ev : Event) (seen : AssetKey -> Prop) :
  (forall c ks k, ev = Render c ks -> In k ks -> seen k) ->
  (forall k, In k (fetches st) -> seen k) ->
  (forall k, In k (inFlight st) -> seen k) ->
  (forall k, resolved k (result st) -> seen k) ->
  (forall k, In k (fetches (step st ev)) -> seen k) /\
  (forall k, In k (inFlight (step st ev)) -> seen k) /\
  (forall k, resolved k (result (step st ev)) -> seen k).
Proof.
  intros Hev Hsent Hfly Hres. destruct ev as [c ks|n data|n]; simpl.
  - unfold render. destruct (depsChanged _ _); [|repeat split; assumption].
    destruct (missingKeyJSON ks (result st)) as [loadKey|] eqn:Hmiss; simpl;
      [|repeat split; assumption].
    destruct (missingKeyJSON_some _ _ _ Hmiss) as [Hin _].
    pose proof (Hev c ks loadKey eq_refl Hin) as Hnew.
    repeat split; try assumption; intros k Hk; apply in_app_or in Hk;
      (destruct Hk as [Hk|[<-|[]]]; [auto|exact Hnew]).
  - destruct (nth_error (inFlight st) n) as [loadKey|] eqn:Hn;
      [|repeat split; assumption].
    pose proof (Hfly loadKey (nth_error_In _ _ Hn)) as Hload.
    destruct (loadPartitionHealthData loadKey data) as [loaded| |] eqn:Hloaded; simpl;
      (split; [exact Hsent|split; [intros k Hk; exact (Hfly k (In_removeNth _ _ _ Hk))|]]);
      try exact Hres.
    intros k (r & Hr & Hk). apply in_app_or in Hr. destruct Hr as [Hr|[<-|[]]].
    + apply Hres. exists r. split; assumption.
    + rewrite (load_assetKey loadKey data loaded Hloaded) in Hk. subst k. exact Hload.
  - split; [exact Hsent|split; [|exact Hres]].
    intros k Hk. exact (Hfly k (In_removeNth _ _ _ Hk)).
Qed.

Lemma requested_steps (events : list Event) (seen : AssetKey -> Prop) :
  forall st,
    (forall c ks k, In (Render c ks) events -> In k ks -> seen k) ->
    (forall k, In k (fetches st) -> seen k) ->
    (forall k, In k (inFlight st) -> seen k) ->
    (forall k, resolved k (result st) -> seen k) ->
    (forall k, In k (fetches (fold_left step events st)) -> seen k) /\
    (forall k, In k (inFlight (fold_left step events st)) -> seen k) /\
    (forall k, resolved k (result (fold_left step events st)) -> seen k).
Proof.
  induction events as [|ev events IH]; intros st Hev Hsent Hfly Hres; simpl.
  - repeat split; assumption.
  - destruct (requested_step st ev seen) as (Hs & Hf & Hr); try assumption.
    + intros c ks k -> Hk. apply (Hev c ks k); [left; reflexivity|exact Hk].
    + apply IH; try assumption.
      intros c ks k Hin Hk. apply (Hev c ks k); [right; exact Hin|exact Hk].
Qed.

(** X19: whatever the trace, every key a query was sent for, every key with
    an outstanding query and every key an index is held for occurs in the
    key list of some render of the trace: the hook never loads an asset
    nobody asked for. *)
Theorem only_requested_keys_are_loaded (events : list Event) (k : AssetKey) :
  In k (fetches (run events)) \/ In k (inFlight (run events)) \/
  resolved k (result (run events)) ->
  requestedIn events k.
Proof.
  destruct (requested_steps events (requestedIn events) initial) as (Hs & Hf & Hr).
  - intros c ks k' Hin Hk. exists c, ks. split; assumption.
  - intros k' [].
  - intros k' [].
  - intros k' (r & [] & _).
  - intros [H|[H|H]]; [exact (Hs k H)|exact (Hf k H)|exact (Hr k H)].
Qed.

Lemma only_requested_keys_are_loaded_witness :
  In keyB (fetches (run [Render 0 [keyA]; Render 0 [keyB; keyA]])) /\
  requestedIn [Render 0 [keyA]; Render 0 [keyB; keyA]] keyB.
Proof.
  assert (Hin : In keyB (fetches (run [Render 0 [keyA]; Render 0 [keyB; keyA]]))).
  { right. left. reflexivity. }
  split; [exact Hin|].
  exact (only_requested_keys_are_loaded [Render 0 [keyA]; Render 0 [keyB; keyA]]
           keyB (or_introl Hin)).
Defined.

(** *** Keys are loaded one at a time, in list order *)

Lemma firstn_succ_nth {A : Type} (l : list A) (n : nat) (x : A) :
  nth_error l n = Some x -> firstn (S n) l = firstn n l ++ [x].
Proof.
  revert n. induction l as [|a l IH]; intros n Hn.
  - destruct n; discriminate.
  - destruct n as [|n]; simpl in *.
    + injection Hn as ->. reflexivity.
    + f_equal. exact (IH n Hn).
Qed.

Lemma find_after_failures {A : Type} (p : A -> bool) (failing rest : list A) (x : A) :
  (forall a, In a failing -> p a = false) -> p x = true ->
  find p (failing ++ x :: rest) = Some x.
Proof.
  intros Hfail Hx. induction failing as [|a failing IH]; simpl.
  - rewrite Hx. reflexivity.
  - rewrite (Hfail a (or_introl eq_refl)). apply IH.
    intros b Hb. apply Hfail. right. exact Hb.
Qed.

Lemma missingKeyJSON_next (ks : list AssetKey) (res : list PartitionHealthData)
  (n : nat) (k : AssetKey) :
  NoDup ks -> nth_error ks n = Some k ->
  map assetKey res = firstn n ks ->
  missingKeyJSON ks res = Some k.
Proof.
  intros Hnd Hk Hres. unfold missingKeyJSON.
  rewrite <- (firstn_skipn_middle n ks Hk).
  rewrite <- (firstn_skipn_middle n ks Hk) in Hnd.
  apply find_after_failures.
  - intros a Ha. apply negb_false_iff. apply existsb_exists.
    rewrite <- Hres in Ha. apply in_map_iff in Ha. destruct Ha as (r & Hr & Hin).
    exists r. split; [exact Hin|]. apply AssetKey_eqb_eq. exact Hr.
  - apply negb_true_iff.
    destruct (existsb (fun r => AssetKey_eqb (assetKey r) k) res) eqn:Hex; [|reflexivity].
    exfalso. apply existsb_exists in Hex. destruct Hex as (r & Hr & Heq).
    apply AssetKey_eqb_eq in Heq. apply NoDup_remove_2 in Hnd. apply Hnd.
    apply in_or_app. left. rewrite <- Hres, <- Heq. apply in_map. exact Hr.
Qed.

(** X20: with pairwise distinct requested keys, when every render is
    followed by the answer to its query and each answer can be built into an
    index, the keys are queried and resolved one per round, in the order of
    the list: after [n] rounds exactly the first [n] keys have been queried,
    their indexes are held in that order, and nothing is outstanding. *)
Theorem keys_are_loaded_in_list_order
  (client : nat) (assetKeys : list AssetKey) (answers : list AssetNodeOrError) :
  NoDup assetKeys ->
  List.length answers <= List.length assetKeys ->
  (forall data k, In data answers ->
                  exists h, loadPartitionHealthData k data = Ret h) ->
  map assetKey (result (run (rounds client assetKeys answers)))
    = firstn (List.length answers) assetKeys /\
  fetches (run (rounds client assetKeys answers))
    = firstn (List.length answers) assetKeys /\
  inFlight (run (rounds client assetKeys answers)) = [].
Proof.
  intros Hnd.
  enough (Hall : List.length answers <= List.length assetKeys ->
            (forall data k, In data answers ->
                            exists h, loadPartitionHealthData k data = Ret h) ->
            let st := run (rounds client assetKeys answers) in
            map assetKey (result st) = firstn (List.length answers) assetKeys /\
            fetches st = firstn (List.length answers) assetKeys /\
            inFlight st = [] /\
            memoDeps st = match List.length answers with
                          | O => None
                          | S n => Some (client, nth_error assetKeys n)
                          end).
  { intros Hlen Hload. destruct (Hall Hlen Hload) as (H1 & H2 & H3 & _).
    split; [exact H1|split; [exact H2|exact H3]]. }
  induction answers as [|data answers IH] using rev_ind; intros Hlen Hload.
  - simpl. repeat split; reflexivity.
  - rewrite length_app in Hlen. simpl in Hlen.
    destruct IH as (Hres & Hsent & Hidle & Hmemo).
    + lia.
    + intros d k Hd. apply Hload. apply in_or_app. left. exact Hd.
    + unfold rounds in *. rewrite flat_map_app, run_app. simpl.
      set (st := run (flat_map (fun d => [Render client assetKeys; QueryAnswered 0 d])
                               answers)) in *.
      set (n := List.length answers) in *.
      destruct (nth_error assetKeys n) as [k|] eqn:Hk;
        [|apply nth_error_None in Hk; lia].
      pose proof (missingKeyJSON_next assetKeys (result st) n k Hnd Hk Hres) as Hmiss.
      assert (Hch : depsChanged (memoDeps st) (client, Some k) = true).
      { rewrite Hmemo. destruct n as [|m] eqn:Hn; [reflexivity|].
        destruct (nth_error assetKeys m) as [prev|] eqn:Hprev;
          [|unfold depsChanged, sameDeps; simpl; rewrite andb_false_r; reflexivity].
        unfold depsChanged, sameDeps. simpl.
        destruct (AssetKey_eqb prev k) eqn:Heq; [|rewrite andb_false_r; reflexivity].
        apply AssetKey_eqb_eq in Heq. subst prev. exfalso.
        assert (Hm : m < List.length assetKeys).
        { apply nth_error_Some. rewrite Hprev. discriminate. }
        pose proof (proj1 (NoDup_nth_error assetKeys) Hnd m (S m) Hm) as Hsame.
        rewrite Hprev, Hk in Hsame. specialize (Hsame eq_refl). lia. }
      destruct (Hload data k) as [loaded Hloaded]; [apply in_or_app; right; left; reflexivity|].
      unfold render. rewrite Hmiss, Hch. cbn [inFlight result fetches memoDeps].
      rewrite Hidle. cbn [app nth_error]. rewrite Hloaded.
      cbn [inFlight result fetches memoDeps].
      rewrite length_app. cbn [List.length]. fold n.
      replace (n + 1) with (S n) by lia.
      rewrite (firstn_succ_nth assetKeys n k Hk).
      repeat split.
      * rewrite map_app, Hres. simpl.
        rewrite (load_assetKey k data loaded Hloaded). reflexivity.
      * rewrite Hsent. reflexivity.
      * rewrite Hk. reflexivity.
Qed.

Lemma keys_are_loaded_in_list_order_witness :
  NoDup [keyA; keyB] /\
  List.length [abcPayload; gridPayload] <= List.length [keyA; keyB] /\
  fetches (run (rounds 0 [keyA; keyB] [abcPayload; gridPayload])) = [keyA; keyB] /\
  inFlight (run (rounds 0 [keyA; keyB] [abcPayload; gridPayload])) = [].
Proof.
  assert (Hnd : NoDup [keyA; keyB]).
  { repeat constructor; simpl; intuition discriminate. }
  assert (Hlen : List.length [abcPayload; gridPayload] <= List.length [keyA; keyB])
    by (simpl; lia).
  split; [exact Hnd|split; [exact Hlen|]].
  refine (proj2 (keys_are_loaded_in_list_order 0 [keyA; keyB]
                   [abcPayload; gridPayload] Hnd Hlen _)).
  intros data k [<-|[<-|[]]]; eexists; reflexivity.
Defined.

End HookMore.
